(** * In-memory todo console application: model and verification

    A shallow embedding of [src/todo_app.py].  The program keeps two
    module-level globals ([task_store], [next_task_id]) and talks to a
    console.  It is modelled as a state monad over a [world] holding the
    unread console lines and the two globals; a run also yields the
    events written to the console and either a value or an uncaught
    exception.

    Strings are [string]: a character is a code point below 256, so the
    whitespace removed by [str.strip] is the Latin-1 part of Python's
    whitespace set.  Python integers are [Z]; the dictionary is a
    [gmap Z task]; [str] of an integer is stdpp's [pretty].

    The repository operations of the specification are the functions of
    the program: create is [add_task], list is [view_tasks], get is
    [find_task], update is [update_task], delete is [delete_task] and
    toggleStatus is [toggle_task_status].  Their arguments are the lines
    they read from the console, and the failures [InvalidTitle] and
    [NotFound] and the truncation warnings are the lines they print. *)

From Stdlib Require Import ZArith Ascii String List Lia.
From stdpp Require Import base gmap strings list sorting pretty.

Local Open Scope Z_scope.

(** ** Strings *)

Module Str.

(** [c.isspace()] for a code point below 256. *)
Definition isspace (c : ascii) : bool :=
  let n := N_of_ascii c in
  ((9 <=? n) && (n <=? 13) || (28 <=? n) && (n <=? 32)
   || (n =? 133) || (n =? 160))%N.

Fixpoint lstrip (s : string) : string :=
  match s with
  | EmptyString => EmptyString
  | String c s' => if isspace c then lstrip s' else s
  end.

Definition is_empty (s : string) : bool :=
  match s with EmptyString => true | String _ _ => false end.

Fixpoint rstrip (s : string) : string :=
  match s with
  | EmptyString => EmptyString
  | String c s' =>
      let r := rstrip s' in
      if isspace c && is_empty r then EmptyString else String c r
  end.

(** [s.strip()] *)
Definition strip (s : string) : string := rstrip (lstrip s).

(** [s[:n]] *)
Fixpoint take (n : nat) (s : string) : string :=
  match n, s with
  | S n', String c s' => String c (take n' s')
  | _, _ => EmptyString
  end.

(** [c * n] for a one-character string [c] *)
Fixpoint repeat (c : ascii) (n : nat) : string :=
  match n with
  | O => EmptyString
  | S n' => String c (repeat c n')
  end.

(** [len(s)] as a Python integer *)
Definition len (s : string) : Z := Z.of_nat (String.length s).

(** Truth value of a string in a condition: non-empty. *)
Definition truthy (s : string) : bool := negb (is_empty s).

(** The line feed of the literals written with a backslash-n. *)
Definition nl : string := String "010"%char EmptyString.

Definition is_digit (c : ascii) : bool :=
  let n := N_of_ascii c in ((48 <=? n) && (n <=? 57))%N.

Definition digit_value (c : ascii) : Z := Z.of_N (N_of_ascii c) - 48.

(** Decimal digits with single underscores between digits, as accepted
    by [int()]; [prev] tells whether the previous character was a
    digit. *)
Fixpoint digits (acc : Z) (prev : bool) (s : string) : option Z :=
  match s with
  | EmptyString => if prev then Some acc else None
  | String c s' =>
      if is_digit c then digits (10 * acc + digit_value c) true s'
      else if Ascii.eqb c "_"%char && prev then digits acc false s'
      else None
  end.

(** [int(s)] for a string: surrounding whitespace, an optional sign,
    decimal digits.  [None] stands for [ValueError].  (An interpreter
    may in addition refuse very long digit strings; that limit is not
    part of the model.) *)
Definition int (s : string) : option Z :=
  match strip s with
  | EmptyString => None
  | String c s' =>
      if Ascii.eqb c "-"%char then Z.opp <$> digits 0 false s'
      else if Ascii.eqb c "+"%char then digits 0 false s'
      else digits 0 false (String c s')
  end.

(** Every character of [s] satisfies [p]. *)
Fixpoint all (p : ascii → bool) (s : string) : bool :=
  match s with
  | EmptyString => true
  | String c s' => p c && all p s'
  end.

End Str.

(** ** Tasks and normalisation of their fields *)

(** A task dictionary [{"id": .., "title": .., "description": ..,
    "status": ..}]; the four keys are always present. *)
Record task := Task {
  tid : Z;
  title : string;
  description : string;
  status : string
}.

Definition set_title (v : string) (t : task) : task :=
  Task (tid t) v (description t) (status t).
Definition set_description (v : string) (t : task) : task :=
  Task (tid t) (title t) v (status t).
Definition set_status (v : string) (t : task) : task :=
  Task (tid t) (title t) (description t) v.

(** [validate_title]: the pair (validated title or None, warning or None). *)
Definition validate_title (title : string) : option string * option string :=
  let title := Str.strip title in
  if negb (Str.truthy title) then
    (None, Some "Title cannot be empty")
  else if 100 <? Str.len title then
    let title := Str.take 100 title in
    (Some title, Some "Title truncated to 100 characters")
  else (Some title, None).

(** [validate_description] *)
Definition validate_description (description : string)
  : string * option string :=
  if 500 <? Str.len description then
    let description := Str.take 500 description in
    (description, Some "Description truncated to 500 characters")
  else (description, None).

(** ** The console and the globals *)

(** What a run writes to standard output: [print(s)] or the prompt of
    [input(s)]. *)
Inductive event :=
  | Print (s : string)
  | Prompt (s : string).

(** Exceptions that no handler of the program catches. *)
Inductive exn :=
  | EOFError
  | KeyError (k : Z).

#[global] Instance event_eq_dec : EqDecision event.
Proof. solve_decision. Defined.
#[global] Instance exn_eq_dec : EqDecision exn.
Proof. solve_decision. Defined.
#[global] Instance task_eq_dec : EqDecision task.
Proof. solve_decision. Defined.
#[global] Instance task_inhabited : Inhabited task :=
  populate (Task 0 EmptyString EmptyString EmptyString).

(** The lines still to be read from standard input and the two globals. *)
Record world := World {
  stdin : list string;
  task_store : gmap Z task;
  next_task_id : Z
}.

(** How a call ends: with a value or with an uncaught exception. *)
Inductive outcome (A : Type) :=
  | Return (a : A)
  | Raise (e : exn).
Arguments Return {A} a.
Arguments Raise {A} e.

(** A run: what was written to the console, how the call ended, and
    the state it left. *)
Record run (A : Type) := Run {
  out : list event;
  res : outcome A;
  final : world
}.
Arguments Run {A} out res final.
Arguments out {A} r.
Arguments res {A} r.
Arguments final {A} r.

Definition M (A : Type) : Type := world → run A.

#[global] Instance M_ret : MRet M := λ A a w, Run [] (Return a) w.

(** The run [r] after the events [evs]. *)
Definition after {A} (evs : list event) (r : run A) : run A :=
  match r with
  | Run evs' o w => Run (evs ++ evs') o w
  end.

#[global] Instance M_bind : MBind M := λ A B f m w,
  match m w with
  | Run evs (Return a) w' => after evs (f a w')
  | Run evs (Raise e) w' => Run evs (Raise e) w'
  end.

Definition raise {A} (e : exn) : M A := λ w, Run [] (Raise e) w.

(** [print(s)] *)
Definition print (s : string) : M unit := λ w, Run [Print s] (Return tt) w.

(** [input(prompt)]: the next line, or [EOFError] at the end of input. *)
Definition input (prompt : string) : M string := λ w,
  match stdin w with
  | [] => Run [Prompt prompt] (Raise EOFError) w
  | line :: rest =>
      Run [Prompt prompt] (Return line)
          (World rest (task_store w) (next_task_id w))
  end.

(** [while True: line = input(prompt); ...] where the body only prints
    and then either leaves the loop with a value or starts over. *)
Fixpoint input_loop_on {A} (prompt : string)
    (body : string → list event * option A) (lines : list string)
  : list event * outcome A * list string :=
  match lines with
  | [] => ([Prompt prompt], Raise EOFError, [])
  | line :: rest =>
      match body line with
      | (evs, Some a) => (Prompt prompt :: evs, Return a, rest)
      | (evs, None) =>
          let '(evs', r, rest') := input_loop_on prompt body rest in
          (Prompt prompt :: evs ++ evs', r, rest')
      end
  end.

Definition input_loop {A} (prompt : string)
    (body : string → list event * option A) : M A := λ w,
  let '(evs, r, rest) := input_loop_on prompt body (stdin w) in
  Run evs r (World rest (task_store w) (next_task_id w)).

(** [for x in l: body(x)] *)
Fixpoint for_each {A} (l : list A) (body : A → M unit) : M unit :=
  match l with
  | [] => mret tt
  | x :: l' => body x;; for_each l' body
  end.

(** Reads and writes of the globals. *)
Definition get_task_store : M (gmap Z task) := λ w,
  Run [] (Return (task_store w)) w.
Definition get_next_task_id : M Z := λ w,
  Run [] (Return (next_task_id w)) w.
Definition set_next_task_id (n : Z) : M unit := λ w,
  Run [] (Return tt) (World (stdin w) (task_store w) n).

(** [task_store[k]] *)
Definition getitem (k : Z) : M task := λ w,
  match task_store w !! k with
  | Some t => Run [] (Return t) w
  | None => Run [] (Raise (KeyError k)) w
  end.

(** [task_store[k] = t] *)
Definition setitem (k : Z) (t : task) : M unit := λ w,
  Run [] (Return tt) (World (stdin w) (<[k := t]> (task_store w))
                            (next_task_id w)).

(** [del task_store[k]] *)
Definition delitem (k : Z) : M unit := λ w,
  match task_store w !! k with
  | Some _ => Run [] (Return tt) (World (stdin w) (delete k (task_store w))
                                        (next_task_id w))
  | None => Run [] (Raise (KeyError k)) w
  end.

(** [task[field] = v] where [task] is the dictionary stored under [k]:
    the object is shared with the store, so the store sees the change. *)
Definition mutate (k : Z) (f : task → task) : M unit := λ w,
  Run [] (Return tt) (World (stdin w) (alter f k (task_store w))
                            (next_task_id w)).

(** ** The functions of the program *)

(** The body of the loop of [get_user_input], after the line is read. *)
Definition get_user_input_line (allow_empty : bool) (line : string)
  : list event * option string :=
  let user_input := Str.strip line in
  if negb allow_empty && negb (Str.truthy user_input) then ([], None)
  else ([], Some user_input).

(** [get_user_input] *)
Definition get_user_input (prompt : string) (allow_empty : bool)
  : M string :=
  input_loop prompt (get_user_input_line allow_empty).

(** A warning inside an f-string. *)
Definition fmt (warning : option string) : string :=
  default "None" warning.

(** [if warning: print(f"Warning: {warning}")] *)
Definition print_warning (warning : option string) : M unit :=
  match warning with
  | Some m => if Str.truthy m then print ("Warning: " +:+ m) else mret tt
  | None => mret tt
  end.

Definition warning_events (warning : option string) : list event :=
  match warning with
  | Some m => if Str.truthy m then [Print ("Warning: " +:+ m)] else []
  | None => []
  end.

Definition not_found_msg (task_id : Z) : string :=
  "Task ID " +:+ pretty task_id +:+ " not found".

(** [find_task] *)
Definition find_task (task_id : Z) : M (option task) :=
  store ← get_task_store;
  match store !! task_id with
  | Some t => mret (Some t)
  | None => print (not_found_msg task_id);; mret None
  end.

(** The body of the title loop of [add_task], after the line is read. *)
Definition add_task_title (line : string) : list event * option string :=
  let title_input := Str.strip line in
  let '(validated_title, warning) := validate_title title_input in
  match validated_title with
  | None => ([Print ("Error: " +:+ fmt warning)], None)
  | Some t => (warning_events warning, Some t)
  end.

(** [add_task] *)
Definition add_task : M unit :=
  print (Str.nl +:+ "--- Add New Task ---");;
  validated_title ← input_loop "Enter task title: " add_task_title;
  description_input ←
    input "Enter task description (optional, press Enter to skip): ";
  let '(validated_description, warning) :=
    validate_description description_input in
  print_warning warning;;
  next ← get_next_task_id;
  let task := Task next validated_title validated_description "Pending" in
  setitem next task;;
  set_next_task_id (next + 1);;
  print (Str.nl +:+ "Success! Task created with ID " +:+ pretty (tid task));;
  print ("Title: " +:+ title task);;
  print ("Status: " +:+ status task).

Definition shown_description (t : task) : string :=
  if Str.truthy (description t) then description t else "[No description]".

Definition dashes : string := Str.repeat "-"%char 50.

(** What the loop of [view_tasks] prints for one task. *)
Definition show_task (t : task) : list event :=
  [ Print (Str.nl +:+ dashes);
    Print ("ID: " +:+ pretty (tid t));
    Print ("Title: " +:+ title t);
    Print ("Description: " +:+ shown_description t);
    Print ("Status: " +:+ status t) ].

(** [sorted(task_store.keys())] *)
Definition sorted_ids (store : gmap Z task) : list Z :=
  merge_sort Z.le (map_to_list store).*1.

(** The body of the loop of [view_tasks]. *)
Definition view_task (task_id : Z) : M unit :=
  task ← getitem task_id;
  print (Str.nl +:+ dashes);;
  print ("ID: " +:+ pretty (tid task));;
  print ("Title: " +:+ title task);;
  print ("Description: " +:+ shown_description task);;
  print ("Status: " +:+ status task).

(** [view_tasks] *)
Definition view_tasks : M unit :=
  print (Str.nl +:+ "--- All Tasks ---");;
  store ← get_task_store;
  if decide (store = ∅) then
    print (Str.nl +:+ "No tasks found. Add your first task to get started!")
  else
    for_each (sorted_ids store) view_task;;
    print dashes;;
    print (Str.nl +:+ "Total tasks: " +:+ pretty (size store)).

(** The body of the title loop of [update_task], after the line is read;
    [current] is the title of the task being edited. *)
Definition update_task_title (current : string) (line : string)
  : list event * option string :=
  let title_input := Str.strip line in
  if negb (Str.truthy title_input) then ([], Some current)
  else
    let '(validated_title, warning) := validate_title title_input in
    match validated_title with
    | None => ([Print ("Error: " +:+ fmt warning)], None)
    | Some t => (warning_events warning, Some t)
    end.

(** [update_task] *)
Definition update_task : M unit :=
  print (Str.nl +:+ "--- Update Task ---");;
  line ← input "Enter task ID to update: ";
  match Str.int line with
  | None => print "Error: Please enter a valid number"
  | Some task_id =>
      found ← find_task task_id;
      match found with
      | None => mret tt
      | Some task =>
          print (Str.nl +:+ "Current title: " +:+ title task);;
          print ("Current description: " +:+ shown_description task);;
          new_title ←
            input_loop
              (Str.nl +:+ "Enter new title (or press Enter to keep current): ")
              (update_task_title (title task));
          description_input ←
            input "Enter new description (or press Enter to keep current): ";
          new_description ←
            (if negb (Str.truthy description_input) then
               mret (description task)
             else
               let '(validated_description, warning) :=
                 validate_description description_input in
               print_warning warning;;
               mret validated_description);
          mutate task_id (set_title new_title);;
          mutate task_id (set_description new_description);;
          let task := set_description new_description
                        (set_title new_title task) in
          print (Str.nl +:+ "Success! Task ID " +:+ pretty task_id
                 +:+ " updated");;
          print ("New title: " +:+ title task);;
          print ("New description: " +:+ shown_description task)
      end
  end.

(** [delete_task] *)
Definition delete_task : M unit :=
  print (Str.nl +:+ "--- Delete Task ---");;
  line ← input "Enter task ID to delete: ";
  match Str.int line with
  | None => print "Error: Please enter a valid number"
  | Some task_id =>
      found ← find_task task_id;
      match found with
      | None => mret tt
      | Some task =>
          print (Str.nl +:+ "Task to delete:");;
          print ("ID: " +:+ pretty (tid task));;
          print ("Title: " +:+ title task);;
          delitem task_id;;
          print (Str.nl +:+ "Task ID " +:+ pretty task_id
                 +:+ " deleted successfully")
      end
  end.

(** The new value of [task['status']] in [toggle_task_status]. *)
Definition toggled (st : string) : string :=
  if String.eqb st "Pending" then "Completed" else "Pending".

(** [toggle_task_status] *)
Definition toggle_task_status : M unit :=
  print (Str.nl +:+ "--- Mark Complete/Incomplete ---");;
  line ← input "Enter task ID: ";
  match Str.int line with
  | None => print "Error: Please enter a valid number"
  | Some task_id =>
      found ← find_task task_id;
      match found with
      | None => mret tt
      | Some task =>
          print (Str.nl +:+ "Current status: " +:+ status task);;
          mutate task_id (set_status (toggled (status task)));;
          let task := set_status (toggled (status task)) task in
          print (Str.nl +:+ "Task ID " +:+ pretty task_id +:+ " marked as "
                 +:+ status task)
      end
  end.

(** [display_menu] *)
Definition display_menu : M unit :=
  print (Str.nl +:+ Str.repeat "="%char 50);;
  print "         TODO CONSOLE APPLICATION";;
  print (Str.repeat "="%char 50);;
  print "1. Add Task";;
  print "2. View Tasks";;
  print "3. Update Task";;
  print "4. Delete Task";;
  print "5. Mark Complete/Incomplete";;
  print "6. Exit";;
  print (Str.repeat "="%char 50).

(** One turn of the menu loop of [main] once the choice is read;
    [continue] is the rest of the loop, which choice 6 leaves. *)
Definition dispatch (choice : string) (continue : M unit) : M unit :=
  if String.eqb choice "1" then add_task;; continue
  else if String.eqb choice "2" then view_tasks;; continue
  else if String.eqb choice "3" then update_task;; continue
  else if String.eqb choice "4" then delete_task;; continue
  else if String.eqb choice "5" then toggle_task_status;; continue
  else if String.eqb choice "6" then
    print (Str.nl +:+ "Thank you for using the Todo Console Application!");;
    print "All tasks have been cleared from memory. Goodbye!"
  else
    print (Str.nl +:+ "Error: Invalid choice. Please try again.");;
    print "Please enter a number between 1 and 6.";;
    continue.

(** The menu loop of [main].  Every turn reads a line, so the number of
    turns is bounded by the number of lines on the console; [fuel]
    counts the turns that may still be taken. *)
Fixpoint main_loop (fuel : nat) : M unit :=
  match fuel with
  | O => mret tt
  | S fuel' =>
      display_menu;;
      choice ← input (Str.nl +:+ "Enter your choice (1-6): ");
      dispatch (Str.strip choice) (main_loop fuel')
  end.

(** [main] *)
Definition main : M unit :=
  print (Str.nl +:+ "Welcome to the In-Memory Todo Console Application!");;
  print "All data is stored in memory and will be lost when you exit.";;
  ((λ w, main_loop (S (length (stdin w))) w) : M unit).

(** ** The repository seen through its operations *)

(** The state at start-up, with the lines the console will supply. *)
Definition initial (lines : list string) : world := World lines ∅ 1.

(** The operations of the repository; each is one function of the
    program.  [Get] is [find_task], the others read their arguments
    from the console. *)
Inductive op :=
  | OpCreate
  | OpList
  | OpGet (task_id : Z)
  | OpUpdate
  | OpDelete
  | OpToggleStatus.

Definition run_op (o : op) : M unit :=
  match o with
  | OpCreate => add_task
  | OpList => view_tasks
  | OpGet task_id => find_task task_id;; mret tt
  | OpUpdate => update_task
  | OpDelete => delete_task
  | OpToggleStatus => toggle_task_status
  end.

(** Operations one after the other; an uncaught exception ends the run. *)
Fixpoint run_ops (os : list op) : M unit :=
  match os with
  | [] => mret tt
  | o :: os' => run_op o;; run_ops os'
  end.

(** The repository invariant. *)
Definition valid_status (s : string) : Prop := s = "Pending" ∨ s = "Completed".

Record valid_task (k : Z) (t : task) : Prop := {
  valid_key : tid t = k;
  valid_title_nonempty : title t ≠ EmptyString;
  valid_title_len : (String.length (title t) ≤ 100)%nat;
  valid_description_len : (String.length (description t) ≤ 500)%nat;
  valid_task_status : valid_status (status t)
}.

Record inv (w : world) : Prop := {
  inv_tasks : ∀ k t, task_store w !! k = Some t → valid_task k t;
  inv_next : ∀ k t, task_store w !! k = Some t → k < next_task_id w
}.

(** An operation reported that [task_id] does not exist. *)
Definition not_found {A} (task_id : Z) (r : run A) : Prop :=
  Print (not_found_msg task_id) ∈ out r.

(** An attempt to enter a title was rejected as empty. *)
Definition invalid_title {A} (r : run A) : Prop :=
  Print "Error: Title cannot be empty" ∈ out r.

Definition truncated_title {A} (r : run A) : Prop :=
  Print "Warning: Title truncated to 100 characters" ∈ out r.

Definition truncated_description {A} (r : run A) : Prop :=
  Print "Warning: Description truncated to 500 characters" ∈ out r.

(** [e] is the line [s] printed by [print]. *)
Definition printed (s : string) (e : event) : bool :=
  match e with
  | Print s' => String.eqb s' s
  | Prompt _ => false
  end.

(** The run [r] of [update_task], [delete_task] or [toggle_task_status]
    from [w] read an id from the console that is not in the mapping, and
    returned at once. *)
Definition id_missing (w : world) (r : run unit) : Prop :=
  ∃ line rest k,
    stdin w = line :: rest ∧ Str.int line = Some k
    ∧ task_store w !! k = None
    ∧ res r = Return tt
    ∧ final r = World rest (task_store w) (next_task_id w).

(** The id that [update_task], [delete_task] or [toggle_task_status]
    will read from the console, if the next line is one. *)
Definition requested_id (w : world) : option Z :=
  match stdin w with
  | line :: _ => Str.int line
  | [] => None
  end.

(** The last line a run printed is [s]. *)
Definition ends_with {A} (s : string) (r : run A) : Prop :=
  ∃ evs, out r = evs ++ [Print s].

(** The repository state: the mapping and the counter. *)
Definition repo (w : world) : gmap Z task * Z :=
  (task_store w, next_task_id w).

(** The console lines of a sequence of creations, a title and a
    description each. *)
Definition create_lines (reqs : list (string * string)) : list string :=
  flat_map (λ r, [r.1; r.2]) reqs.

(** The record a creation stores for the console lines [line] and [d]. *)
Definition new_task (next : Z) (line d : string) : task :=
  Task next (Str.take 100 (Str.strip line)) (validate_description d).1
       "Pending".

(** ** Examples *)

Definition a_task : task := Task 1 "Buy milk" EmptyString "Pending".

Example strip_ex : Str.strip "  Buy milk  " = "Buy milk".
Proof. reflexivity. Qed.

Example int_ex : Str.int " -1_000 " = Some (-1000) ∧ Str.int "1__0" = None
  ∧ Str.int "+7" = Some 7 ∧ Str.int "x" = None ∧ Str.int "007" = Some 7.
Proof. repeat split; reflexivity. Qed.

Example session :
  let r := main (initial ["1"; "Buy milk"; EmptyString; "5"; "1"; "9";
                          "2"; "4"; "1"; "6"; "1"]) in
  res r = Return tt ∧ repo (final r) = (∅, 2) ∧ stdin (final r) = ["1"].
Proof. cbv zeta. repeat split; vm_compute; reflexivity. Qed.

Example scenario :
  let r := run_ops [OpCreate; OpToggleStatus; OpUpdate; OpList; OpDelete; OpGet 1]
             (initial ["Buy milk"; EmptyString; "1"; "1"; "Buy oat milk";
                       EmptyString; "1"]) in
  res r = Return tt ∧ task_store (final r) = ∅ ∧ next_task_id (final r) = 2
  ∧ not_found 1 r.
Proof.
  cbv zeta. repeat split; try (vm_compute; reflexivity).
  unfold not_found. compute_done.
Qed.

(** ** Facts about strings *)

Lemma truthy_false s : Str.truthy s = false ↔ s = EmptyString.
Proof. destruct s; cbn; split; congruence. Qed.

Lemma truthy_true s : Str.truthy s = true ↔ s ≠ EmptyString.
Proof. destruct s; cbn; split; congruence. Qed.

Lemma lstrip_fixed c s : Str.isspace c = false →
  Str.lstrip (String c s) = String c s.
Proof. intros H. cbn. by rewrite H. Qed.

Lemma lstrip_head s :
  Str.lstrip s = EmptyString ∨
  ∃ c s', Str.lstrip s = String c s' ∧ Str.isspace c = false.
Proof.
  induction s as [|c s IH]; cbn; [by left|].
  destruct (Str.isspace c) eqn:E; [done|]. right. eauto.
Qed.

Lemma rstrip_head c s : Str.isspace c = false →
  Str.rstrip (String c s) = String c (Str.rstrip s).
Proof. intros H. cbn. by rewrite H. Qed.

Lemma rstrip_idem s : Str.rstrip (Str.rstrip s) = Str.rstrip s.
Proof.
  induction s as [|c s IH]; [done|]. cbn.
  destruct (Str.isspace c) eqn:E, (Str.rstrip s) eqn:R; cbn in *;
    rewrite ?E; cbn; try done.
  - by rewrite IH.
  - by rewrite IH.
Qed.

Lemma strip_idem s : Str.strip (Str.strip s) = Str.strip s.
Proof.
  unfold Str.strip.
  destruct (lstrip_head s) as [->|(c & s' & -> & Hc)]; [done|].
  rewrite (rstrip_head _ _ Hc), (lstrip_fixed _ _ Hc).
  by rewrite <-(rstrip_head _ _ Hc), rstrip_idem.
Qed.

Lemma length_take n s :
  String.length (Str.take n s) = Nat.min n (String.length s).
Proof.
  revert s; induction n as [|n IH]; intros [|c s]; cbn; auto.
Qed.

Lemma take_all n s : (String.length s ≤ n)%nat → Str.take n s = s.
Proof.
  revert s; induction n as [|n IH]; intros [|c s]; cbn; intros H;
    try done; try lia.
  f_equal. apply IH. lia.
Qed.

Lemma take_nonempty n s : (0 < n)%nat → s ≠ EmptyString →
  Str.take n s ≠ EmptyString.
Proof. destruct n, s; cbn; intros; done || lia. Qed.

Lemma take_title_valid s : s ≠ EmptyString →
  Str.take 100 s ≠ EmptyString ∧ (String.length (Str.take 100 s) ≤ 100)%nat.
Proof.
  intros H. split; [apply take_nonempty; [lia|done]|].
  rewrite length_take. lia.
Qed.

(** ** Every id can be typed at the console

    [pretty] is [str] on integers; [int] reads it back. *)

Lemma digit_char d : (d < 10)%N →
  Str.is_digit (pretty_N_char d) = true
  ∧ Str.digit_value (pretty_N_char d) = Z.of_N d.
Proof.
  intros H.
  assert (d = 0 ∨ d = 1 ∨ d = 2 ∨ d = 3 ∨ d = 4 ∨ d = 5 ∨ d = 6 ∨ d = 7
          ∨ d = 8 ∨ d = 9)%N as Hd by lia.
  repeat (destruct Hd as [->|Hd]; [by split|]). by subst.
Qed.

Lemma is_digit_not_space c :
  Str.is_digit c = true → negb (Str.isspace c) = true.
Proof.
  unfold Str.is_digit, Str.isspace. cbv zeta.
  generalize (N_of_ascii c). intros n.
  rewrite andb_true_iff, !N.leb_le, negb_true_iff. intros [??].
  rewrite !orb_false_iff, !andb_false_iff, !N.leb_gt, !N.eqb_neq. lia.
Qed.

Lemma is_digit_not_sign c :
  Str.is_digit c = true →
  Ascii.eqb c "-" = false ∧ Ascii.eqb c "+" = false.
Proof.
  intros H. split; apply Ascii.eqb_neq; intros ->; discriminate.
Qed.

Lemma all_impl (p q : ascii → bool) s :
  (∀ c, p c = true → q c = true) → Str.all p s = true → Str.all q s = true.
Proof.
  intros Hpq. induction s as [|c s IH]; cbn; [done|].
  rewrite !andb_true_iff. intros [??]. auto.
Qed.

Lemma lstrip_all s :
  Str.all (negb ∘ Str.isspace) s = true → Str.lstrip s = s.
Proof.
  destruct s as [|c s]; cbn; [done|].
  rewrite andb_true_iff, negb_true_iff. by intros [-> _].
Qed.

Lemma rstrip_all s :
  Str.all (negb ∘ Str.isspace) s = true → Str.rstrip s = s.
Proof.
  induction s as [|c s IH]; cbn; [done|].
  rewrite andb_true_iff, negb_true_iff. intros [-> Hs]. cbn.
  by rewrite IH.
Qed.

Lemma strip_all s :
  Str.all (negb ∘ Str.isspace) s = true → Str.strip s = s.
Proof.
  intros H. unfold Str.strip. by rewrite (lstrip_all _ H), (rstrip_all _ H).
Qed.

Lemma pretty_go_all x s :
  Str.all Str.is_digit s = true →
  Str.all Str.is_digit (pretty_N_go x s) = true.
Proof.
  revert s. induction (N.lt_wf_0 x) as [x _ IH]; intros s Hs.
  assert (x = 0 ∨ 0 < x)%N as [->|Hx] by lia; [by rewrite pretty_N_go_0|].
  rewrite pretty_N_go_step by done. apply IH; [by apply N.div_lt|].
  cbn. rewrite Hs, andb_true_r. apply digit_char. by apply N.mod_lt.
Qed.

Lemma pretty_go_digits x s acc prev :
  (0 < x)%N →
  ∃ k, Str.digits acc prev (pretty_N_go x s)
       = Str.digits (acc * k + Z.of_N x) true s.
Proof.
  revert s acc prev. induction (N.lt_wf_0 x) as [x _ IH].
  intros s acc prev Hx. rewrite pretty_N_go_step by done.
  destruct (digit_char (x `mod` 10)) as [D1 D2]; [by apply N.mod_lt|].
  assert (Z.of_N x = 10 * Z.of_N (x `div` 10) + Z.of_N (x `mod` 10)) as Hdm.
  { rewrite (N.div_mod x 10) at 1 by done. lia. }
  destruct (N.eq_0_gt_0_cases (x `div` 10)) as [Hq|Hq].
  - rewrite Hq, pretty_N_go_0. exists 10. cbn [Str.digits].
    rewrite D1, D2, Hdm, Hq. f_equal. lia.
  - destruct (IH (x `div` 10)%N (N.div_lt x 10 Hx eq_refl)
               (String (pretty_N_char (x `mod` 10)) s) acc prev Hq)
      as [k Hk].
    exists (10 * k). rewrite Hk. cbn [Str.digits].
    rewrite D1, D2, Hdm. f_equal. lia.
Qed.

Lemma int_pretty_pos p :
  Str.digits 0 false (pretty_N_go (N.pos p) EmptyString) = Some (Z.pos p)
  ∧ Str.all Str.is_digit (pretty_N_go (N.pos p) EmptyString) = true.
Proof.
  split; [|by apply pretty_go_all].
  destruct (pretty_go_digits (N.pos p) EmptyString 0 false) as [k ->];
    [lia|]. done.
Qed.

(** [int(str(z))] is [z]. *)
Lemma int_pretty (z : Z) : Str.int (pretty z) = Some z.
Proof.
  destruct z as [|p|p]; [done| |].
  - destruct (int_pretty_pos p) as [Hd Ha].
    change (pretty (Z.pos p)) with (pretty_N_go (N.pos p) EmptyString).
    unfold Str.int.
    rewrite strip_all by (by apply (all_impl _ _ _ is_digit_not_space)).
    destruct (pretty_N_go (N.pos p) EmptyString) as [|c s]; [done|].
    cbn in Ha. apply andb_true_iff in Ha as [Hc _].
    destruct (is_digit_not_sign _ Hc) as [-> ->]. done.
  - destruct (int_pretty_pos p) as [Hd Ha].
    change (pretty (Z.neg p))
      with (String "-" (pretty_N_go (N.pos p) EmptyString)).
    unfold Str.int. rewrite strip_all.
    + cbv beta iota. by rewrite Ascii.eqb_refl, Hd.
    + cbn [Str.all]. by apply (all_impl _ _ _ is_digit_not_space).
Qed.

(** ** Facts about the normalisation of titles and descriptions *)

(** The three outcomes of [validate_title], in terms of the stripped
    input. *)
Lemma validate_title_empty s : Str.strip s = EmptyString →
  validate_title s = (None, Some "Title cannot be empty").
Proof. intros H. unfold validate_title. by rewrite H. Qed.

Lemma validate_title_long s : (100 < String.length (Str.strip s))%nat →
  validate_title s = (Some (Str.take 100 (Str.strip s)),
                      Some "Title truncated to 100 characters").
Proof.
  intros H. unfold validate_title.
  destruct (Str.strip s) eqn:E; [cbn in H; lia|].
  cbn [Str.truthy Str.is_empty negb].
  destruct (Z.ltb_spec 100 (Str.len (String a s0))); [done|].
  unfold Str.len in *. lia.
Qed.

Lemma validate_title_short s :
  Str.strip s ≠ EmptyString → (String.length (Str.strip s) ≤ 100)%nat →
  validate_title s = (Some (Str.strip s), None).
Proof.
  intros H1 H2. unfold validate_title.
  destruct (Str.strip s) eqn:E; [done|].
  cbn [Str.truthy Str.is_empty negb].
  destruct (Z.ltb_spec 100 (Str.len (String a s0))); [|done].
  unfold Str.len in *. lia.
Qed.

(** A title that [validate_title] accepts is non-empty and at most 100
    characters long. *)
Lemma validate_title_valid s t w :
  validate_title s = (Some t, w) →
  t ≠ EmptyString ∧ (String.length t ≤ 100)%nat.
Proof.
  destruct (decide (Str.strip s = EmptyString)) as [E|E].
  { rewrite (validate_title_empty _ E). congruence. }
  destruct (le_lt_dec (String.length (Str.strip s)) 100) as [L|L].
  - rewrite (validate_title_short _ E L). intros [= <- <-]. done.
  - rewrite (validate_title_long _ L).
    pose proof (take_title_valid _ E) as HV. revert HV.
    generalize (Str.take 100 (Str.strip s)). by intros t' HV [= <- <-].
Qed.

Lemma validate_description_len d :
  (String.length (validate_description d).1 ≤ 500)%nat.
Proof.
  unfold validate_description.
  destruct (Z.ltb_spec 500 (Str.len d)); cbn [fst].
  - rewrite length_take. lia.
  - unfold Str.len in *. lia.
Qed.

(** ** Runs in explicit form *)

Ltac run_simpl :=
  repeat (progress (
    unfold mbind, M_bind, mret, M_ret, print, input, input_loop,
      get_next_task_id, get_task_store, setitem, set_next_task_id,
      print_warning, warning_events, mutate, delitem, getitem, raise;
    cbn [after out res final stdin task_store next_task_id app fst snd
         negb tid title description status])).

Lemma after_out {A} evs (r : run A) : out (after evs r) = evs ++ out r.
Proof. by destruct r. Qed.

Lemma after_res {A} evs (r : run A) : res (after evs r) = res r.
Proof. by destruct r. Qed.

Lemma after_final {A} evs (r : run A) : final (after evs r) = final r.
Proof. by destruct r. Qed.

Lemma print_warning_run warning w :
  print_warning warning w = Run (warning_events warning) (Return tt) w.
Proof. destruct warning as [m|]; [|done]. cbn. by destruct (Str.truthy m). Qed.

Lemma find_task_run task_id w :
  find_task task_id w =
  match task_store w !! task_id with
  | Some t => Run [] (Return (Some t)) w
  | None => Run [Print (not_found_msg task_id)] (Return None) w
  end.
Proof. unfold find_task. run_simpl. by destruct (task_store w !! task_id). Qed.

Lemma add_task_run w :
  add_task w =
  let '(evs, r, rest) :=
    input_loop_on "Enter task title: " add_task_title (stdin w) in
  let store := task_store w in
  let next := next_task_id w in
  let hdr := Print (Str.nl +:+ "--- Add New Task ---") in
  let ask :=
    Prompt "Enter task description (optional, press Enter to skip): " in
  match r, rest with
  | Raise e, _ => Run (hdr :: evs) (Raise e) (World rest store next)
  | Return t, [] =>
      Run (hdr :: evs ++ [ask]) (Raise EOFError) (World [] store next)
  | Return t, d :: rest' =>
      let '(vd, warning) := validate_description d in
      Run (hdr :: evs ++ ask :: warning_events warning ++
             [Print (Str.nl +:+ "Success! Task created with ID "
                     +:+ pretty next);
              Print ("Title: " +:+ t);
              Print ("Status: " +:+ "Pending")])
          (Return tt)
          (World rest' (<[next := Task next t vd "Pending"]> store)
                 (next + 1))
  end.
Proof.
  unfold add_task. run_simpl.
  destruct (input_loop_on _ _ _) as [[evs r] rest]. run_simpl.
  destruct r as [t|e]; run_simpl; [|done].
  destruct rest as [|d rest']; run_simpl; [done|].
  destruct (validate_description d) as [vd [m|]]; run_simpl; [|done].
  destruct (Str.truthy m); run_simpl; done.
Qed.

Lemma view_task_run task_id w t :
  task_store w !! task_id = Some t →
  view_task task_id w = Run (show_task t) (Return tt) w.
Proof. intros H. unfold view_task. run_simpl. by rewrite H. Qed.

Lemma for_each_view ks w :
  (∀ k, k ∈ ks → is_Some (task_store w !! k)) →
  for_each ks view_task w =
  Run (flat_map (λ k, show_task (task_store w !!! k)) ks) (Return tt) w.
Proof.
  induction ks as [|k ks IH]; intros H; [done|].
  destruct (H k) as [t Ht]; [by left|].
  cbn [for_each flat_map]. unfold mbind, M_bind.
  rewrite (view_task_run _ _ _ Ht). cbn [res final out].
  rewrite IH by (intros; apply H; by right).
  cbn [res final out]. by rewrite (lookup_total_correct _ _ _ Ht).
Qed.

Lemma sorted_ids_perm (store : gmap Z task) :
  sorted_ids store ≡ₚ (map_to_list store).*1.
Proof. apply merge_sort_Permutation. Qed.

Lemma elem_of_sorted_ids (store : gmap Z task) k :
  k ∈ sorted_ids store ↔ is_Some (store !! k).
Proof.
  rewrite sorted_ids_perm, list_elem_of_fmap. split.
  - intros [[k' t] [-> H%elem_of_map_to_list]]. by exists t.
  - intros [t H]. exists (k, t). split; [done|].
    by apply elem_of_map_to_list.
Qed.

Lemma view_tasks_run w :
  view_tasks w =
  let store := task_store w in
  let hdr := Print (Str.nl +:+ "--- All Tasks ---") in
  if decide (store = ∅) then
    Run [hdr; Print (Str.nl +:+
           "No tasks found. Add your first task to get started!")]
        (Return tt) w
  else
    Run (hdr :: flat_map (λ k, show_task (store !!! k)) (sorted_ids store)
           ++ [Print dashes;
               Print (Str.nl +:+ "Total tasks: " +:+ pretty (size store))])
        (Return tt) w.
Proof.
  unfold view_tasks. run_simpl.
  destruct (decide (task_store w = ∅)); [done|].
  run_simpl. rewrite for_each_view by (intros k; apply elem_of_sorted_ids).
  by run_simpl.
Qed.

(** Two assignments to fields of the dictionary stored under [k] amount
    to storing the record with both fields changed. *)
Lemma alter_twice (m : gmap Z task) k t f g :
  m !! k = Some t → alter f k (alter g k m) = <[k := f (g t)]> m.
Proof.
  intros H. apply map_eq. intros j. destruct (decide (k = j)) as [<-|N].
  - by rewrite lookup_insert_eq, !lookup_alter_eq, H.
  - by rewrite lookup_insert_ne, !lookup_alter_ne.
Qed.

Lemma alter_once (m : gmap Z task) k t f :
  m !! k = Some t → alter f k m = <[k := f t]> m.
Proof.
  intros H. apply map_eq. intros j. destruct (decide (k = j)) as [<-|N].
  - by rewrite lookup_insert_eq, lookup_alter_eq, H.
  - by rewrite lookup_insert_ne, lookup_alter_ne.
Qed.

Lemma update_task_run w :
  update_task w =
  let store := task_store w in
  let next := next_task_id w in
  let hdr := Print (Str.nl +:+ "--- Update Task ---") in
  let ask := Prompt "Enter task ID to update: " in
  match stdin w with
  | [] => Run [hdr; ask] (Raise EOFError) w
  | line :: rest0 =>
      match Str.int line with
      | None =>
          Run [hdr; ask; Print "Error: Please enter a valid number"]
              (Return tt) (World rest0 store next)
      | Some task_id =>
          match store !! task_id with
          | None =>
              Run [hdr; ask; Print (not_found_msg task_id)]
                  (Return tt) (World rest0 store next)
          | Some t =>
              let '(evs, r, rest) :=
                input_loop_on
                  (Str.nl +:+
                   "Enter new title (or press Enter to keep current): ")
                  (update_task_title (title t)) rest0 in
              let intro :=
                [hdr; ask;
                 Print (Str.nl +:+ "Current title: " +:+ title t);
                 Print ("Current description: " +:+ shown_description t)] in
              let ask_d :=
                Prompt
                  "Enter new description (or press Enter to keep current): "
              in
              match r, rest with
              | Raise e, _ =>
                  Run (intro ++ evs) (Raise e) (World rest store next)
              | Return _, [] =>
                  Run (intro ++ evs ++ [ask_d]) (Raise EOFError)
                      (World [] store next)
              | Return new_title, d :: rest' =>
                  let new_description :=
                    if Str.truthy d then (validate_description d).1
                    else description t in
                  let warns :=
                    if Str.truthy d
                    then warning_events (validate_description d).2
                    else [] in
                  let t' := Task (tid t) new_title new_description
                                 (status t) in
                  Run (intro ++ evs ++ ask_d :: warns ++
                         [Print (Str.nl +:+ "Success! Task ID "
                                 +:+ pretty task_id +:+ " updated");
                          Print ("New title: " +:+ new_title);
                          Print ("New description: "
                                 +:+ shown_description t')])
                      (Return tt)
                      (World rest' (<[task_id := t']> store) next)
              end
          end
      end
  end.
Proof.
  unfold update_task. run_simpl.
  destruct (stdin w) as [|line rest0]; run_simpl; [by destruct w|].
  destruct (Str.int line) as [task_id|]; run_simpl; [|done].
  rewrite find_task_run. run_simpl.
  destruct (task_store w !! task_id) as [t|] eqn:Ht; run_simpl; [|done].
  destruct (input_loop_on _ _ _) as [[evs r] rest]. run_simpl.
  destruct r as [new_title|e]; run_simpl; [|done].
  destruct rest as [|d rest']; run_simpl; [done|].
  destruct (Str.truthy d) eqn:Hd; run_simpl.
  - destruct (validate_description d) as [vd [m|]]; run_simpl.
    + destruct (Str.truthy m); run_simpl;
        by rewrite (alter_twice _ _ _ _ _ Ht).
    + by rewrite (alter_twice _ _ _ _ _ Ht).
  - by rewrite (alter_twice _ _ _ _ _ Ht).
Qed.

Lemma delete_task_run w :
  delete_task w =
  let store := task_store w in
  let next := next_task_id w in
  let hdr := Print (Str.nl +:+ "--- Delete Task ---") in
  let ask := Prompt "Enter task ID to delete: " in
  match stdin w with
  | [] => Run [hdr; ask] (Raise EOFError) w
  | line :: rest =>
      match Str.int line with
      | None =>
          Run [hdr; ask; Print "Error: Please enter a valid number"]
              (Return tt) (World rest store next)
      | Some task_id =>
          match store !! task_id with
          | None =>
              Run [hdr; ask; Print (not_found_msg task_id)]
                  (Return tt) (World rest store next)
          | Some t =>
              Run [hdr; ask;
                   Print (Str.nl +:+ "Task to delete:");
                   Print ("ID: " +:+ pretty (tid t));
                   Print ("Title: " +:+ title t);
                   Print (Str.nl +:+ "Task ID " +:+ pretty task_id
                          +:+ " deleted successfully")]
                  (Return tt) (World rest (delete task_id store) next)
          end
      end
  end.
Proof.
  unfold delete_task. run_simpl.
  destruct (stdin w) as [|line rest]; run_simpl; [by destruct w|].
  destruct (Str.int line) as [task_id|]; run_simpl; [|done].
  rewrite find_task_run. run_simpl.
  destruct (task_store w !! task_id) as [t|] eqn:Ht; run_simpl; [|done].
  rewrite Ht. by run_simpl.
Qed.

Lemma toggle_task_status_run w :
  toggle_task_status w =
  let store := task_store w in
  let next := next_task_id w in
  let hdr := Print (Str.nl +:+ "--- Mark Complete/Incomplete ---") in
  let ask := Prompt "Enter task ID: " in
  match stdin w with
  | [] => Run [hdr; ask] (Raise EOFError) w
  | line :: rest =>
      match Str.int line with
      | None =>
          Run [hdr; ask; Print "Error: Please enter a valid number"]
              (Return tt) (World rest store next)
      | Some task_id =>
          match store !! task_id with
          | None =>
              Run [hdr; ask; Print (not_found_msg task_id)]
                  (Return tt) (World rest store next)
          | Some t =>
              let t' := set_status (toggled (status t)) t in
              Run [hdr; ask;
                   Print (Str.nl +:+ "Current status: " +:+ status t);
                   Print (Str.nl +:+ "Task ID " +:+ pretty task_id
                          +:+ " marked as " +:+ status t')]
                  (Return tt) (World rest (<[task_id := t']> store) next)
          end
      end
  end.
Proof.
  unfold toggle_task_status. run_simpl.
  destruct (stdin w) as [|line rest]; run_simpl; [by destruct w|].
  destruct (Str.int line) as [task_id|]; run_simpl; [|done].
  rewrite find_task_run. run_simpl.
  destruct (task_store w !! task_id) as [t|] eqn:Ht; run_simpl; [|done].
  by rewrite (alter_once _ _ _ _ Ht).
Qed.

(** ** The prompt loops *)

Section input_loop.
Context {A : Type} (prompt : string) (body : string → list event * option A).

Lemma input_loop_on_again line rest evs :
  body line = (evs, None) →
  input_loop_on prompt body (line :: rest) =
  let '(evs', r, rest') := input_loop_on prompt body rest in
  (Prompt prompt :: evs ++ evs', r, rest').
Proof. intros H. cbn. by rewrite H. Qed.

Lemma input_loop_on_leave line rest evs a :
  body line = (evs, Some a) →
  input_loop_on prompt body (line :: rest) =
  (Prompt prompt :: evs, Return a, rest).
Proof. intros H. cbn. by rewrite H. Qed.

(** The loop ends at the end of input or with a value its body gave for
    one of the lines; what is left of the input is a suffix of it. *)
Lemma input_loop_on_result lines evs r rest :
  input_loop_on prompt body lines = (evs, r, rest) →
  match r with
  | Raise e => e = EOFError ∧ rest = []
  | Return a => ∃ line evs0, line ∈ lines ∧ body line = (evs0, Some a)
  end.
Proof.
  revert evs r rest. induction lines as [|line lines IH]; intros evs r rest.
  - cbn. by intros [= <- <- <-].
  - cbn. destruct (body line) as [evs0 [a|]] eqn:B.
    + intros [= <- <- <-]. exists line, evs0. split; [by left|done].
    + destruct (input_loop_on prompt body lines) as [[evs' r'] rest'].
      intros [= <- <- <-]. specialize (IH _ _ _ eq_refl).
      destruct r'; [|done].
      destruct IH as (l & e0 & ? & ?). exists l, e0. split; [by right|done].
Qed.

Lemma input_loop_on_events (P : event → Prop) lines :
  P (Prompt prompt) → (∀ line, Forall P (body line).1) →
  Forall P (input_loop_on prompt body lines).1.1.
Proof.
  intros Hp Hb. induction lines as [|line lines IH]; cbn.
  - by constructor.
  - specialize (Hb line). destruct (body line) as [evs0 [a|]]; cbn in *.
    + by constructor.
    + destruct (input_loop_on prompt body lines) as [[evs' r'] rest'].
      cbn in *. constructor; [done|]. by apply Forall_app.
Qed.

End input_loop.

Lemma add_task_title_blank line :
  Str.strip line = EmptyString →
  add_task_title line = ([Print "Error: Title cannot be empty"], None).
Proof.
  intros H. unfold add_task_title.
  by rewrite validate_title_empty by (by rewrite strip_idem).
Qed.

Lemma add_task_title_ok line :
  Str.strip line ≠ EmptyString →
  add_task_title line =
  (if 100 <? Str.len (Str.strip line)
   then [Print "Warning: Title truncated to 100 characters"] else [],
   Some (Str.take 100 (Str.strip line))).
Proof.
  intros H. unfold add_task_title.
  destruct (Z.ltb_spec 100 (Str.len (Str.strip line))) as [L|L];
    unfold Str.len in L.
  - rewrite validate_title_long by (rewrite strip_idem; lia).
    rewrite strip_idem. reflexivity.
  - rewrite validate_title_short by (rewrite strip_idem; done || lia).
    rewrite strip_idem. cbn [warning_events]. by rewrite take_all by lia.
Qed.

Lemma update_task_title_blank cur line :
  Str.strip line = EmptyString →
  update_task_title cur line = ([], Some cur).
Proof. intros H. unfold update_task_title. by rewrite H. Qed.

Lemma update_task_title_ok cur line :
  Str.strip line ≠ EmptyString →
  update_task_title cur line =
  (if 100 <? Str.len (Str.strip line)
   then [Print "Warning: Title truncated to 100 characters"] else [],
   Some (Str.take 100 (Str.strip line))).
Proof.
  intros H. unfold update_task_title.
  destruct (Str.truthy (Str.strip line)) eqn:T;
    [|by apply truthy_false in T]. cbn [negb].
  by apply add_task_title_ok.
Qed.

(** A title that leaves the loop of [add_task] is non-empty and at most
    100 characters long; one that leaves the loop of [update_task] is
    that or the current title. *)
Lemma add_task_title_valid line evs t :
  add_task_title line = (evs, Some t) →
  t ≠ EmptyString ∧ (String.length t ≤ 100)%nat.
Proof.
  destruct (decide (Str.strip line = EmptyString)) as [E|E].
  - by rewrite add_task_title_blank.
  - rewrite add_task_title_ok by done.
    pose proof (take_title_valid _ E) as HV. revert HV.
    generalize (Str.take 100 (Str.strip line)). by intros t' HV [= _ <-].
Qed.

Lemma update_task_title_valid cur line evs t :
  update_task_title cur line = (evs, Some t) →
  t = cur ∨ t ≠ EmptyString ∧ (String.length t ≤ 100)%nat.
Proof.
  destruct (decide (Str.strip line = EmptyString)) as [E|E].
  - rewrite update_task_title_blank by done. intros [= _ <-]. by left.
  - rewrite update_task_title_ok, <-add_task_title_ok by done.
    intros H%add_task_title_valid. by right.
Qed.

(** The title loop of [update_task] reads exactly one line when the
    input has one: a blank line keeps the title, any other is accepted. *)
Lemma update_loop_one prompt cur line rest :
  input_loop_on prompt (update_task_title cur) (line :: rest) =
  (Prompt prompt :: (update_task_title cur line).1,
   Return (if Str.truthy (Str.strip line)
           then Str.take 100 (Str.strip line) else cur),
   rest).
Proof.
  destruct (Str.truthy (Str.strip line)) eqn:T.
  - apply truthy_true in T.
    rewrite (input_loop_on_leave _ _ _ _ _ _ (update_task_title_ok cur _ T)).
    by rewrite update_task_title_ok.
  - apply truthy_false in T.
    rewrite (input_loop_on_leave _ _ _ _ _ _
               (update_task_title_blank cur _ T)).
    by rewrite update_task_title_blank.
Qed.

(** ** The invariant *)

Lemma inv_same w w' : repo w' = repo w → inv w → inv w'.
Proof.
  unfold repo. intros [= Hs Hn] [H1 H2].
  split; intros k t; rewrite Hs, ?Hn; eauto.
Qed.

Lemma inv_initial lines : inv (initial lines).
Proof. split; intros k t; cbn; by rewrite lookup_empty. Qed.

Lemma inv_insert_new w rest t :
  inv w → valid_task (next_task_id w) t →
  inv (World rest (<[next_task_id w := t]> (task_store w))
             (next_task_id w + 1)).
Proof.
  intros [H1 H2] Ht. split; intros k t'; cbn;
    rewrite lookup_insert; case_decide; simplify_eq.
  - by intros [= <-].
  - eauto.
  - lia.
  - intros Hk%H2. lia.
Qed.

Lemma inv_insert_old w rest k t :
  inv w → is_Some (task_store w !! k) → valid_task k t →
  inv (World rest (<[k := t]> (task_store w)) (next_task_id w)).
Proof.
  intros [H1 H2] [t0 H0] Ht. split; intros k' t'; cbn;
    rewrite lookup_insert; case_decide; simplify_eq; eauto.
  by intros [= <-].
Qed.

Lemma inv_delete w rest k :
  inv w → inv (World rest (delete k (task_store w)) (next_task_id w)).
Proof.
  intros [H1 H2]. split; intros k' t'; cbn;
    rewrite lookup_delete; case_decide; try done; eauto.
Qed.

Lemma add_task_inv w : inv w → inv (final (add_task w)).
Proof.
  intros Hw. rewrite add_task_run.
  destruct (input_loop_on _ _ _) as [[evs r] rest] eqn:L.
  apply input_loop_on_result in L.
  destruct r as [t|e]; [|by apply (inv_same w)].
  destruct rest as [|d rest']; [by apply (inv_same w)|].
  destruct L as (line & evs0 & _ & [Hne Hlen]%add_task_title_valid).
  pose proof (validate_description_len d) as Hd.
  destruct (validate_description d) as [vd warning]. cbn in *.
  apply inv_insert_new; [done|]. split; cbn; auto. by left.
Qed.

Lemma view_tasks_final w : final (view_tasks w) = w.
Proof. rewrite view_tasks_run. cbn. by case_decide. Qed.

Lemma find_task_final task_id w : final (find_task task_id w) = w.
Proof. rewrite find_task_run. by destruct (task_store w !! task_id). Qed.

Lemma update_task_inv w : inv w → inv (final (update_task w)).
Proof.
  intros Hw. rewrite update_task_run. cbn zeta.
  destruct (stdin w) as [|line rest0]; [done|].
  destruct (Str.int line) as [task_id|]; [|by apply (inv_same w)].
  destruct (task_store w !! task_id) as [t|] eqn:Ht;
    [|by apply (inv_same w)].
  destruct (input_loop_on _ _ _) as [[evs r] rest] eqn:L.
  apply input_loop_on_result in L.
  destruct r as [new_title|e]; [|by apply (inv_same w)].
  destruct rest as [|d rest']; [by apply (inv_same w)|].
  cbn [final]. apply inv_insert_old; [done|by eexists|].
  destruct (inv_tasks _ Hw _ _ Ht) as [V1 V2 V3 V4 V5].
  destruct L as (l & evs0 & _ & Hl%update_task_title_valid).
  split; cbn; try done.
  - by destruct Hl as [->|[? ?]].
  - by destruct Hl as [->|[? ?]].
  - destruct (Str.truthy d); [apply validate_description_len|done].
Qed.

Lemma delete_task_inv w : inv w → inv (final (delete_task w)).
Proof.
  intros Hw. rewrite delete_task_run. cbn zeta.
  destruct (stdin w) as [|line rest]; [done|].
  destruct (Str.int line) as [task_id|]; [|by apply (inv_same w)].
  destruct (task_store w !! task_id) as [t|] eqn:Ht;
    [|by apply (inv_same w)].
  by apply inv_delete.
Qed.

Lemma toggled_valid st : valid_status (toggled st).
Proof. unfold toggled. destruct (String.eqb st _); [by right|by left]. Qed.

Lemma toggle_task_status_inv w : inv w → inv (final (toggle_task_status w)).
Proof.
  intros Hw. rewrite toggle_task_status_run. cbn zeta.
  destruct (stdin w) as [|line rest]; [done|].
  destruct (Str.int line) as [task_id|]; [|by apply (inv_same w)].
  destruct (task_store w !! task_id) as [t|] eqn:Ht;
    [|by apply (inv_same w)].
  cbn [final]. apply inv_insert_old; [done|by eexists|].
  destruct (inv_tasks _ Hw _ _ Ht) as [V1 V2 V3 V4 V5].
  split; cbn; try done. apply toggled_valid.
Qed.

Lemma run_bind_final {A B} (m : M A) (f : A → M B) w :
  final ((m ≫= f) w) =
  match res (m w) with
  | Return a => final (f a (final (m w)))
  | Raise _ => final (m w)
  end.
Proof.
  unfold mbind, M_bind. destruct (m w) as [evs [a|e] w']; cbn; [|done].
  by destruct (f a w').
Qed.

Lemma run_op_get_final task_id w : final (run_op (OpGet task_id) w) = w.
Proof.
  cbn [run_op]. rewrite run_bind_final, find_task_final.
  by destruct (res _).
Qed.

Lemma run_op_inv o w : inv w → inv (final (run_op o w)).
Proof.
  intros Hw. destruct o; [| |by rewrite run_op_get_final| | |]; cbn [run_op].
  - by apply add_task_inv.
  - by rewrite view_tasks_final.
  - by apply update_task_inv.
  - by apply delete_task_inv.
  - by apply toggle_task_status_inv.
Qed.

(** Every state reached from start-up satisfies the invariant. *)
Lemma run_ops_inv os w : inv w → inv (final (run_ops os w)).
Proof.
  revert w. induction os as [|o os IH]; intros w Hw; [done|].
  cbn [run_ops]. rewrite run_bind_final.
  destruct (res (run_op o w)); [apply IH|]; by apply run_op_inv.
Qed.

(** C1: each of the six repository operations (create, list, get,
    update, delete, toggleStatus) preserves the repository invariant:
    every key equals the id of its record, every stored title is
    non-empty and at most 100 characters long, every stored description
    is at most 500 characters long, every stored status is "Pending" or
    "Completed", and the counter exceeds every key of the mapping.  This
    holds whether the operation returns or ends in an exception. *)
Theorem operations_preserve_invariant (o : op) (w : world) :
  inv w → inv (final (run_op o w)).
Proof.
  intros Hw. destruct o as [| |task_id| | |].
  - apply add_task_inv, Hw.
  - change (inv (final (view_tasks w))). by rewrite view_tasks_final.
  - by rewrite run_op_get_final.
  - apply update_task_inv, Hw.
  - apply delete_task_inv, Hw.
  - apply toggle_task_status_inv, Hw.
Qed.

Lemma operations_preserve_invariant_witness :
  let w := initial ["Buy milk"; EmptyString] in
  inv w ∧ inv (final (run_op OpCreate w)).
Proof.
  cbv zeta.
  assert (inv (initial ["Buy milk"; EmptyString])) as Hw
    by (split; intros k t; cbn; rewrite lookup_empty; discriminate).
  split; [exact Hw|].
  apply (operations_preserve_invariant OpCreate
           (initial ["Buy milk"; EmptyString]) Hw).
Defined.

(** ** Creation and the counter *)

(** A creation whose first title line is not blank. *)
Lemma add_task_ok w line d rest :
  stdin w = line :: d :: rest → Str.strip line ≠ EmptyString →
  add_task w =
  Run (Print (Str.nl +:+ "--- Add New Task ---")
       :: (Prompt "Enter task title: " :: (add_task_title line).1)
       ++ Prompt "Enter task description (optional, press Enter to skip): "
       :: warning_events (validate_description d).2 ++
          [Print (Str.nl +:+ "Success! Task created with ID "
                  +:+ pretty (next_task_id w));
           Print ("Title: " +:+ Str.take 100 (Str.strip line));
           Print ("Status: " +:+ "Pending")])
      (Return tt)
      (World rest
         (<[next_task_id w := new_task (next_task_id w) line d]>
            (task_store w))
         (next_task_id w + 1)).
Proof.
  intros Hin Hline. rewrite add_task_run, Hin.
  rewrite (input_loop_on_leave _ _ _ _ _ _ (add_task_title_ok _ Hline)).
  rewrite (add_task_title_ok _ Hline). cbn [fst].
  unfold new_task. by destruct (validate_description d).
Qed.


(** The counter moves only in a creation that returns, and then by one. *)
Lemma run_op_next o w :
  next_task_id (final (run_op o w)) =
  next_task_id w +
  match o, res (run_op o w) with
  | OpCreate, Return _ => 1
  | _, _ => 0
  end.
Proof.
  destruct o; [| |rewrite run_op_get_final; lia| | |]; cbn [run_op].
  - rewrite add_task_run.
    destruct (input_loop_on _ _ _) as [[evs r] rest].
    destruct r as [t|e]; [|cbn; lia].
    destruct rest as [|d rest']; [cbn; lia|].
    by destruct (validate_description d).
  - rewrite view_tasks_final. lia.
  - rewrite update_task_run. cbn zeta.
    destruct (stdin w) as [|line rest0]; [cbn; lia|].
    destruct (Str.int line) as [task_id|]; [|cbn; lia].
    destruct (task_store w !! task_id) as [t|]; [|cbn; lia].
    destruct (input_loop_on _ _ _) as [[evs r] rest].
    destruct r as [new_title|e]; [|cbn; lia].
    destruct rest as [|d rest']; cbn; lia.
  - rewrite delete_task_run. cbn zeta.
    destruct (stdin w) as [|line rest0]; [cbn; lia|].
    destruct (Str.int line) as [task_id|]; [|cbn; lia].
    destruct (task_store w !! task_id) as [t|]; cbn; lia.
  - rewrite toggle_task_status_run. cbn zeta.
    destruct (stdin w) as [|line rest0]; [cbn; lia|].
    destruct (Str.int line) as [task_id|]; [|cbn; lia].
    destruct (task_store w !! task_id) as [t|]; cbn; lia.
Qed.

Lemma run_op_next_le o w :
  next_task_id w ≤ next_task_id (final (run_op o w)).
Proof.
  rewrite run_op_next. destruct o; try lia.
  destruct (res (run_op OpCreate w)); lia.
Qed.

Lemma run_ops_next_le os w :
  next_task_id w ≤ next_task_id (final (run_ops os w)).
Proof.
  revert w. induction os as [|o os IH]; intros w; [done|].
  cbn [run_ops]. rewrite run_bind_final.
  pose proof (run_op_next_le o w).
  destruct (res (run_op o w)); [|done].
  specialize (IH (final (run_op o w))). lia.
Qed.

(** Creations one after the other, from any state. *)
Lemma creates_run reqs rest w :
  Forall (λ r, Str.strip r.1 ≠ EmptyString) reqs →
  stdin w = create_lines reqs ++ rest →
  let r := run_ops (replicate (length reqs) OpCreate) w in
  res r = Return tt ∧ stdin (final r) = rest ∧
  next_task_id (final r) = next_task_id w + Z.of_nat (length reqs) ∧
  (∀ i t d, reqs !! i = Some (t, d) →
     task_store (final r) !! (next_task_id w + Z.of_nat i) =
     Some (new_task (next_task_id w + Z.of_nat i) t d)) ∧
  (∀ k, k < next_task_id w ∨ next_task_id w + Z.of_nat (length reqs) ≤ k →
     task_store (final r) !! k = task_store w !! k).
Proof.
  intros Hreqs. revert w.
  induction Hreqs as [|[t d] reqs Ht _ IH]; intros w Hin.
  { cbn. repeat split; try done; try lia. }
  cbn [length replicate run_ops create_lines flat_map app fst snd] in *.
  pose proof (add_task_ok _ _ _ _ Hin Ht) as Hrun.
  set (w1 := World (flat_map (λ r, [r.1; r.2]) reqs ++ rest)
    (<[next_task_id w := new_task (next_task_id w) t d]> (task_store w))
    (next_task_id w + 1)) in *.
  destruct (IH w1 eq_refl) as (R1 & R2 & R3 & R4 & R5).
  unfold mbind, M_bind. cbn [run_op]. rewrite Hrun.
  fold w1. rewrite after_res, !after_final. repeat split.
  - done.
  - done.
  - rewrite R3. cbn. lia.
  - intros [|i] t' d' Hi; cbn in Hi.
    + injection Hi as <- <-. rewrite R5 by (cbn; lia). cbn.
      rewrite Z.add_0_r. by rewrite lookup_insert_eq.
    + specialize (R4 _ _ _ Hi). cbn [next_task_id w1] in R4.
      by replace (next_task_id w + Z.of_nat (S i)) with (next_task_id w + 1 + Z.of_nat i) by lia.
  - intros k Hk. rewrite R5 by (cbn; lia). cbn.
    rewrite lookup_insert_ne; [done|lia].
Qed.

(** C2: the repository starts empty with the counter at 1.  For every
    sequence of creations whose title lines are not blank, run from the
    initial repository, every creation returns, the record of the i-th
    creation (counting from 0) gets id i+1 and is stored under that key,
    and the keys are exactly 1..n: the ids increase from 1 without gaps.
    A creation that returns stores its record under the current value of
    the counter and moves the counter up by one; no other operation and
    no failed creation changes the counter, so it never decreases over
    any sequence of operations.  Hence an id that was once in the
    mapping stays below the counter whatever happens afterwards, its
    deletion included, and is never the id of a later creation. *)
Theorem create_ids_increasing_never_reused :
  (∀ lines, repo (initial lines) = (∅, 1))
  ∧ (∀ reqs rest,
       Forall (λ r, Str.strip r.1 ≠ EmptyString) reqs →
       let r := run_ops (replicate (length reqs) OpCreate)
                  (initial (create_lines reqs ++ rest)) in
       res r = Return tt
       ∧ next_task_id (final r) = 1 + Z.of_nat (length reqs)
       ∧ (∀ i t d, reqs !! i = Some (t, d) →
            task_store (final r) !! (Z.of_nat i + 1) =
            Some (new_task (Z.of_nat i + 1) t d))
       ∧ (∀ k, is_Some (task_store (final r) !! k) ↔ 1 ≤ k ≤ Z.of_nat (length reqs)))
  ∧ (∀ w line d rest,
       stdin w = line :: d :: rest → Str.strip line ≠ EmptyString →
       let r := add_task w in
       res r = Return tt
       ∧ task_store (final r) =
         <[next_task_id w := new_task (next_task_id w) line d]> (task_store w)
       ∧ next_task_id (final r) = next_task_id w + 1
       ∧ Print (Str.nl +:+ "Success! Task created with ID "
                +:+ pretty (next_task_id w)) ∈ out r)
  ∧ (∀ o w,
       next_task_id (final (run_op o w)) =
       next_task_id w +
       match o, res (run_op o w) with
       | OpCreate, Return _ => 1
       | _, _ => 0
       end)
  ∧ (∀ os w, next_task_id w ≤ next_task_id (final (run_ops os w)))
  ∧ (∀ os w k,
       inv w → is_Some (task_store w !! k) →
       let w' := final (run_ops os w) in
       k < next_task_id w' ∧
       ∀ line d rest,
         stdin w' = line :: d :: rest → Str.strip line ≠ EmptyString →
         task_store (final (add_task w')) !! k = task_store w' !! k).
Proof.
  split; [done|]. split; [|split; [|split; [|split]]].
  - intros reqs rest Hreqs.
    destruct (creates_run reqs rest (initial (create_lines reqs ++ rest))
                Hreqs eq_refl) as (R1 & _ & R3 & R4 & R5).
    cbn zeta in *. change (next_task_id (initial _)) with 1 in *.
    split; [done|]. split; [done|]. split.
    + intros i t d Hi. specialize (R4 _ _ _ Hi).
      by rewrite (Z.add_comm _ 1).
    + intros k. split.
      * intros Hk.
        destruct (decide (k < 1 ∨ 1 + Z.of_nat (length reqs) ≤ k))
          as [D|D]; [|lia].
        rewrite (R5 _ D) in Hk. cbn in Hk. rewrite lookup_empty in Hk.
        by destruct Hk.
      * intros [Hk1 Hk2].
        destruct (lookup_lt_is_Some_2 reqs (Z.to_nat (k - 1)))
          as [[t d] Hi]; [lia|].
        specialize (R4 _ _ _ Hi).
        replace (1 + Z.of_nat (Z.to_nat (k - 1))) with k in R4 by lia.
        by eexists.
  - intros w line d rest Hin Hline. cbn zeta.
    rewrite (add_task_ok _ _ _ _ Hin Hline). cbn [res final out task_store
      next_task_id]. repeat split.
    rewrite list_elem_of_In. right. apply in_or_app. right. right.
    apply in_or_app. right. by left.
  - apply run_op_next.
  - apply run_ops_next_le.
  - intros os w k Hw [t Hk]. cbn zeta.
    pose proof (inv_next _ Hw _ _ Hk).
    pose proof (run_ops_next_le os w). split; [lia|].
    intros line d rest Hin Hline.
    rewrite (add_task_ok _ _ _ _ Hin Hline). cbn [final task_store].
    rewrite lookup_insert_ne; [done|lia].
Qed.

Lemma create_ids_increasing_never_reused_witness :
  let reqs := [("Buy milk", EmptyString); ("  Call Ann ", "today")] in
  Forall (λ r, Str.strip r.1 ≠ EmptyString) reqs
  ∧ next_task_id
      (final (run_ops (replicate (length reqs) OpCreate)
                (initial (create_lines reqs ++ [])))) = 1 + Z.of_nat (length reqs).
Proof.
  cbv zeta.
  assert (Forall (λ r : string * string, Str.strip r.1 ≠ EmptyString)
            [("Buy milk", EmptyString); ("  Call Ann ", "today")]) as H
    by (repeat constructor; vm_compute; discriminate).
  split; [exact H|].
  apply (proj1 (proj2 create_ids_increasing_never_reused) _ [] H).
Defined.

(** ** What the operations print *)

Lemma not_printed s l : Forall (λ e, printed s e = false) l → Print s ∉ l.
Proof.
  intros H Hin. rewrite Forall_forall in H. specialize (H _ Hin).
  cbn in H. by rewrite String.eqb_refl in H.
Qed.


(** The title loop of [update_task] never rejects a line: a line that is
    not blank stays so when stripped again. *)
Lemma update_task_title_events (P : event → Prop) cur line :
  P (Print "Warning: Title truncated to 100 characters") →
  Forall P (update_task_title cur line).1.
Proof.
  intros H. destruct (decide (Str.strip line = EmptyString)) as [E|E].
  - rewrite update_task_title_blank by done. by constructor.
  - rewrite update_task_title_ok by done. cbn [fst].
    destruct (100 <? _); by repeat constructor.
Qed.

Lemma description_warning_events (P : event → Prop) d :
  P (Print "Warning: Description truncated to 500 characters") →
  Forall P (warning_events (validate_description d).2).
Proof.
  intros H. unfold validate_description.
  destruct (500 <? _); cbn; by repeat constructor.
Qed.

Lemma show_tasks_events (P : event → Prop) (f : Z → task) ks :
  (∀ t, Forall P (show_task t)) →
  Forall P (flat_map (λ k, show_task (f k)) ks).
Proof.
  intros H. induction ks as [|k ks IH]; cbn [flat_map]; [by constructor|].
  apply Forall_app_2; [apply H|apply IH].
Qed.

Ltac silent :=
  repeat first
    [ apply Forall_nil_2 | apply Forall_cons_2 | apply Forall_app_2
    | apply description_warning_events | apply show_tasks_events; intros ? ];
  try assumption; try reflexivity.

Section not_found.
Context (task_id : Z).
Let quiet (e : event) : Prop := printed (not_found_msg task_id) e = false.




Lemma update_task_not_found w :
  not_found task_id (update_task w) → id_missing w (update_task w).
Proof.
  unfold not_found, id_missing. rewrite update_task_run. cbn zeta.
  destruct (stdin w) as [|line rest0] eqn:Hin.
  { intros H. exfalso. revert H. apply not_printed. silent. }
  destruct (Str.int line) as [k|] eqn:Hint.
  2:{ intros H. exfalso. revert H. apply not_printed. silent. }
  destruct (task_store w !! k) as [t|] eqn:Ht.
  2:{ intros _. by exists line, rest0, k. }
  intros H. exfalso. revert H. apply not_printed.
  match goal with |- context [input_loop_on ?p ?b ?l] =>
    pose proof (input_loop_on_events p b quiet l eq_refl
      (λ line, update_task_title_events quiet _ line eq_refl)) as Hevs;
    destruct (input_loop_on p b l) as [[evs r] rest] end.
  cbn [fst] in Hevs.
  destruct r as [new_title|e]; [|silent].
  destruct rest as [|d rest']; [silent|].
  cbn [out]. silent. destruct (Str.truthy d); silent.
Qed.

Lemma delete_task_not_found w :
  not_found task_id (delete_task w) → id_missing w (delete_task w).
Proof.
  unfold not_found, id_missing. rewrite delete_task_run. cbn zeta.
  destruct (stdin w) as [|line rest0] eqn:Hin.
  { intros H. exfalso. revert H. apply not_printed. silent. }
  destruct (Str.int line) as [k|] eqn:Hint.
  2:{ intros H. exfalso. revert H. apply not_printed. silent. }
  destruct (task_store w !! k) as [t|] eqn:Ht.
  2:{ intros _. by exists line, rest0, k. }
  intros H. exfalso. revert H. apply not_printed. silent.
Qed.

Lemma toggle_task_status_not_found w :
  not_found task_id (toggle_task_status w) →
  id_missing w (toggle_task_status w).
Proof.
  unfold not_found, id_missing. rewrite toggle_task_status_run. cbn zeta.
  destruct (stdin w) as [|line rest0] eqn:Hin.
  { intros H. exfalso. revert H. apply not_printed. silent. }
  destruct (Str.int line) as [k|] eqn:Hint.
  2:{ intros H. exfalso. revert H. apply not_printed. silent. }
  destruct (task_store w !! k) as [t|] eqn:Ht.
  2:{ intros _. by exists line, rest0, k. }
  intros H. exfalso. revert H. apply not_printed. silent.
Qed.

End not_found.

(** ** Lookups that fail *)

(** Follow the explicit form of a run along the branch that the
    equations select. *)
Ltac along_eqs Hs :=
  cbv zeta;
  let rec go Hs :=
    lazymatch Hs with
    | (?Hs', ?H) => go Hs'; rewrite H; cbv beta iota
    | ?H => rewrite H; cbv beta iota
    end in
  go Hs.

Ltac by_id_cases Ho :=
  apply elem_of_cons in Ho as [->|Ho];
  [|apply elem_of_cons in Ho as [->|Ho];
    [|apply list_elem_of_singleton in Ho as ->]].


Lemma run_op_not_found o w task_id :
  o ∈ [OpUpdate; OpDelete; OpToggleStatus] →
  not_found task_id (run_op o w) → id_missing w (run_op o w).
Proof.
  intros Ho. by_id_cases Ho; cbn [run_op].
  - apply update_task_not_found.
  - apply delete_task_not_found.
  - apply toggle_task_status_not_found.
Qed.



(** ** Toggling the status *)





(** ** Long titles *)

(** C5, as the code has it: when the title line, stripped of
    surrounding whitespace, is longer than 100 characters, the creation
    returns, the stored title is the first 100 characters of the
    stripped line and has length 100, and the truncation warning is
    printed.  For a line without surrounding whitespace these are the
    first 100 characters of the line itself. *)
Theorem long_title_truncated
    (w : world) (line d : string) (rest : list string) :
  stdin w = line :: d :: rest →
  (100 < String.length (Str.strip line))%nat →
  let r := add_task w in
  res r = Return tt
  ∧ (∃ t, task_store (final r) !! next_task_id w = Some t
       ∧ tid t = next_task_id w
       ∧ title t = Str.take 100 (Str.strip line)
       ∧ String.length (title t) = 100%nat
       ∧ (Str.strip line = line → title t = Str.take 100 line))
  ∧ truncated_title r.
Proof.
  intros Hin Hlen. cbn zeta.
  assert (Str.strip line ≠ EmptyString) as Hne
    by (intros E; rewrite E in Hlen; cbn in Hlen; lia).
  rewrite (add_task_ok _ _ _ _ Hin Hne). cbn [res final out task_store].
  split; [done|]. split.
  - eexists. rewrite lookup_insert_eq. split; [done|].
    unfold new_task. cbn [tid title]. repeat split.
    + rewrite length_take. lia.
    + by intros ->.
  - unfold truncated_title. cbn [out].
    rewrite (add_task_title_ok _ Hne). cbn [fst].
    destruct (Z.ltb_spec 100 (Str.len (Str.strip line))) as [L|L];
      [|unfold Str.len in L; lia].
    right. right. by left.
Qed.

Lemma long_title_truncated_witness :
  let line := Str.repeat "a"%char 150 in
  let w := initial [line; EmptyString] in
  stdin w = [line; EmptyString]
  ∧ (100 < String.length (Str.strip line))%nat
  ∧ truncated_title (add_task w).
Proof.
  cbv zeta.
  assert (100 < String.length (Str.strip (Str.repeat "a"%char 150)))%nat
    as Hlen by (vm_compute; lia).
  split; [reflexivity|]. split; [exact Hlen|].
  apply (long_title_truncated
           (initial [Str.repeat "a"%char 150; EmptyString])
           (Str.repeat "a"%char 150) EmptyString [] eq_refl Hlen).
Defined.

(** C5 as stated fails on a line of length 150 that starts with
    whitespace: the line is stripped first, so 51 spaces followed by 99
    letters give a title of length 99, which is not the first 100
    characters of the line, and no warning. *)
Lemma long_title_counterexample :
  let line := Str.repeat " "%char 51 +:+ Str.repeat "a"%char 99 in
  let r := add_task (initial [line; EmptyString]) in
  String.length line = 150%nat
  ∧ Str.strip line ≠ EmptyString
  ∧ res r = Return tt
  ∧ (∃ t, task_store (final r) !! 1 = Some t
       ∧ String.length (title t) = 99%nat
       ∧ title t ≠ Str.take 100 line)
  ∧ ¬ truncated_title r.
Proof.
  cbv zeta. split; [reflexivity|]. split; [by vm_compute|].
  split; [by vm_compute|]. split.
  - eexists. split; [vm_compute; reflexivity|].
    split; [reflexivity|by vm_compute].
  - apply not_printed. vm_compute. repeat constructor.
Qed.

(** ** Failures leave the repository alone *)






(** ** Updates *)

(** An update that finds its id and has a title line and a description
    line to read. *)
Lemma update_task_found w line tl d rest task_id t :
  stdin w = line :: tl :: d :: rest → Str.int line = Some task_id →
  task_store w !! task_id = Some t →
  let new_title :=
    if Str.truthy (Str.strip tl) then Str.take 100 (Str.strip tl)
    else title t in
  let new_description :=
    if Str.truthy d then (validate_description d).1 else description t in
  let r := update_task w in
  res r = Return tt
  ∧ final r =
    World rest
      (<[task_id := Task (tid t) new_title new_description (status t)]>
         (task_store w))
      (next_task_id w)
  ∧ (Str.truthy d = true →
     Forall (λ e, e ∈ out r) (warning_events (validate_description d).2)).
Proof.
  intros Hin Hint Ht. cbn zeta.
  rewrite update_task_run. along_eqs (Hin, Hint, Ht).
  rewrite update_loop_one. cbn [res final out]. repeat split.
  intros ->. apply Forall_forall. intros e He.
  rewrite !elem_of_app, !elem_of_cons, !elem_of_app. tauto.
Qed.

(** Whatever the input, an update keeps the keys of the mapping and the
    id and status of every record. *)
Lemma update_task_keeps w k :
  match task_store w !! k with
  | Some t =>
      ∃ t', task_store (final (update_task w)) !! k = Some t'
            ∧ tid t' = tid t ∧ status t' = status t
  | None => task_store (final (update_task w)) !! k = None
  end.
Proof.
  assert (match task_store w !! k with
          | Some t => ∃ t', task_store w !! k = Some t'
                            ∧ tid t' = tid t ∧ status t' = status t
          | None => task_store w !! k = None
          end) as Hsame by (destruct (task_store w !! k); eauto).
  rewrite update_task_run. cbn zeta.
  destruct (stdin w) as [|line rest0]; [done|].
  destruct (Str.int line) as [task_id|]; [|done].
  destruct (task_store w !! task_id) as [t|] eqn:Ht; [|done].
  destruct (input_loop_on _ _ _) as [[evs r] rest].
  destruct r as [new_title|e]; [|done].
  destruct rest as [|d rest']; [done|].
  cbn [final task_store]. clear Hsame.
  destruct (decide (task_id = k)) as [->|N].
  - rewrite Ht, lookup_insert_eq. eauto.
  - rewrite lookup_insert_ne by done.
    destruct (task_store w !! k); eauto.
Qed.

(** C7: when the console line reads as an id of the mapping, the title
    line is blank after stripping and the description line is empty,
    [update_task] returns and the record under that id is the one that
    was there: title, description, status and id are unchanged, and so
    are the mapping and the counter.  Whatever the console lines are, an
    update leaves the id and the status of every record as they were. *)
Theorem update_keeps_id_and_status :
  (∀ w line tl rest task_id t,
     stdin w = line :: tl :: EmptyString :: rest →
     Str.int line = Some task_id → Str.strip tl = EmptyString →
     task_store w !! task_id = Some t →
     let r := update_task w in
     res r = Return tt
     ∧ task_store (final r) !! task_id = Some t
     ∧ repo (final r) = repo w)
  ∧ (∀ w k t,
       task_store w !! k = Some t →
       ∃ t', task_store (final (update_task w)) !! k = Some t'
             ∧ tid t' = tid t ∧ status t' = status t).
Proof.
  split.
  - intros w line tl rest task_id t Hin Hint Htl Ht. cbn zeta.
    destruct (update_task_found _ _ _ _ _ _ _ Hin Hint Ht) as (R1 & R2 & _).
    rewrite R1, R2, Htl. unfold repo. cbn.
    replace (Task (tid t) (title t) (description t) (status t)) with t
      by (by destruct t).
    by rewrite lookup_insert_eq, (insert_id _ _ _ Ht).
  - intros w k t Ht. pose proof (update_task_keeps w k) as H.
    by rewrite Ht in H.
Qed.

Lemma update_keeps_id_and_status_witness :
  let w := World ["1"; EmptyString; EmptyString] {[1 := a_task]} 2 in
  stdin w = ["1"; EmptyString; EmptyString]
  ∧ Str.int "1" = Some 1 ∧ Str.strip EmptyString = EmptyString
  ∧ task_store w !! 1 = Some a_task
  ∧ task_store (final (update_task w)) !! 1 = Some a_task.
Proof.
  cbv zeta.
  assert (task_store (World ["1"; EmptyString; EmptyString]
                        {[1 := a_task]} 2) !! 1
          = Some a_task) as Ht by (vm_compute; reflexivity).
  repeat (split; [first [reflexivity | exact Ht]|]).
  apply (proj1 update_keeps_id_and_status
           (World ["1"; EmptyString; EmptyString] {[1 := a_task]} 2)
           "1" EmptyString [] 1 a_task eq_refl eq_refl eq_refl Ht).
Defined.




(** ** Listing *)

Lemma sorted_ids_NoDup (store : gmap Z task) : NoDup (sorted_ids store).
Proof. rewrite sorted_ids_perm. apply NoDup_fst_map_to_list. Qed.

Lemma sorted_le_NoDup_lt (l : list Z) :
  StronglySorted Z.le l → NoDup l → StronglySorted Z.lt l.
Proof.
  induction 1 as [|x l Hl IH Hx]; intros Hnd; [constructor|].
  apply NoDup_cons in Hnd as [Hin Hnd]. constructor; [by apply IH|].
  rewrite Forall_forall in Hx |- *. intros y Hy.
  specialize (Hx _ Hy). assert (x ≠ y) by (by intros ->). lia.
Qed.

Lemma sorted_ids_ascending (store : gmap Z task) :
  StronglySorted Z.lt (sorted_ids store).
Proof.
  apply sorted_le_NoDup_lt; [|apply sorted_ids_NoDup].
  apply (StronglySorted_merge_sort Z.le).
Qed.

(** The entries of the mapping in the order in which [view_tasks] shows
    them. *)
Lemma listed_entries (store : gmap Z task) :
  let kts := (λ k, (k, store !!! k)) <$> sorted_ids store in
  kts ≡ₚ map_to_list store ∧ kts.*1 = sorted_ids store.
Proof.
  cbn zeta. split.
  - rewrite sorted_ids_perm, <-list_fmap_compose.
    assert ((λ k, (k, store !!! k)) ∘ fst <$> map_to_list store
            = map_to_list store) as ->; [|done].
    rewrite <-(list_fmap_id (map_to_list store)) at 2.
    apply Forall_fmap_ext, Forall_forall.
    intros [k t] H%elem_of_map_to_list. cbn.
    by rewrite (lookup_total_correct _ _ _ H).
  - rewrite <-list_fmap_compose. apply list_fmap_id.
Qed.

Lemma flat_map_fmap {A B C} (f : A → B) (g : B → list C) (l : list A) :
  flat_map g (f <$> l) = flat_map (g ∘ f) l.
Proof. induction l as [|x l IH]; cbn; [done|]. by rewrite IH. Qed.

(** C9: [view_tasks] always returns, without an exception and without
    changing the state.  What it shows are the entries of the mapping,
    each exactly once, in strictly ascending order of id; for an empty
    mapping that is the empty sequence, and the function prints its
    "No tasks found" line and returns. *)
Theorem view_tasks_lists_ascending (w : world) :
  let r := view_tasks w in
  res r = Return tt ∧ final r = w
  ∧ ∃ kts : list (Z * task),
      kts ≡ₚ map_to_list (task_store w)
      ∧ StronglySorted Z.lt kts.*1
      ∧ (∀ k t, (k, t) ∈ kts ↔ task_store w !! k = Some t)
      ∧ (task_store w = ∅ →
         kts = []
         ∧ out r =
           [Print (Str.nl +:+ "--- All Tasks ---");
            Print (Str.nl +:+
                   "No tasks found. Add your first task to get started!")])
      ∧ (task_store w ≠ ∅ →
         out r =
         Print (Str.nl +:+ "--- All Tasks ---")
         :: flat_map (λ kt, show_task kt.2) kts
         ++ [Print dashes;
             Print (Str.nl +:+ "Total tasks: "
                    +:+ pretty (size (task_store w)))]).
Proof.
  cbn zeta. rewrite view_tasks_run. cbn zeta.
  split; [by case_decide|]. split; [by case_decide|].
  destruct (listed_entries (task_store w)) as [Hperm Hfst].
  eexists. split; [exact Hperm|]. split; [|split; [|split]].
  - rewrite Hfst. apply sorted_ids_ascending.
  - intros k t. rewrite Hperm. apply elem_of_map_to_list.
  - intros E. rewrite decide_True by done. split; [|done].
    apply Permutation_nil_r. by rewrite Hperm, E, map_to_list_empty.
  - intros E. rewrite decide_False by done. cbn [out].
    by rewrite flat_map_fmap.
Qed.

Example listing_after_delete :
  let r := run_ops [OpCreate; OpCreate; OpCreate; OpDelete; OpCreate]
             (initial ["a"; "x"; "b"; "y"; "c"; "z"; "2"; "d"; "u"]) in
  res r = Return tt ∧ sorted_ids (task_store (final r)) = [1; 3; 4].
Proof. cbv zeta. split; by vm_compute. Qed.

(** ** Frame properties *)


Lemma delete_task_store w :
  task_store (final (delete_task w)) =
  match requested_id w with
  | Some task_id => delete task_id (task_store w)
  | None => task_store w
  end.
Proof.
  unfold requested_id. rewrite delete_task_run. cbn zeta.
  destruct (stdin w) as [|line rest0]; [done|].
  destruct (Str.int line) as [task_id|]; [|done].
  destruct (task_store w !! task_id) as [t|] eqn:Ht; [done|].
  cbn. by rewrite delete_id.
Qed.

Lemma toggle_task_status_store w :
  task_store (final (toggle_task_status w)) =
  match requested_id w with
  | Some task_id =>
      alter (λ t, set_status (toggled (status t)) t) task_id (task_store w)
  | None => task_store w
  end.
Proof.
  unfold requested_id. rewrite toggle_task_status_run. cbn zeta.
  destruct (stdin w) as [|line rest0]; [done|].
  destruct (Str.int line) as [task_id|]; [|done].
  destruct (task_store w !! task_id) as [t|] eqn:Ht; cbn.
  - by rewrite (alter_once _ _ _ _ Ht).
  - apply map_eq. intros j. rewrite lookup_alter.
    case_decide; [subst; by rewrite Ht|done].
Qed.



(** ** The menu loop *)

Lemma bind_ext {A B} (m : M A) (f g : A → M B) w :
  (∀ a, res (m w) = Return a → f a (final (m w)) = g a (final (m w))) →
  (m ≫= f) w = (m ≫= g) w.
Proof.
  intros H. unfold mbind, M_bind.
  destruct (m w) as [evs [a|e] w']; [|done]. cbn in H.
  by rewrite (H a eq_refl).
Qed.

Lemma input_loop_on_rest {A} prompt (body : string → list event * option A)
    lines :
  (length (input_loop_on prompt body lines).2 ≤ length lines)%nat.
Proof.
  induction lines as [|line lines IH]; cbn; [done|].
  destruct (body line) as [evs [a|]]; cbn; [lia|].
  destruct (input_loop_on prompt body lines) as [[evs' r] rest']. cbn in *.
  lia.
Qed.

(** No operation puts lines back on the console. *)
Lemma run_op_stdin o w :
  (length (stdin (final (run_op o w))) ≤ length (stdin w))%nat.
Proof.
  destruct o; [| |by rewrite run_op_get_final| | |]; cbn [run_op].
  - rewrite add_task_run.
    pose proof (input_loop_on_rest "Enter task title: " add_task_title
                  (stdin w)) as Hrest.
    destruct (input_loop_on _ _ _) as [[evs r] rest]. cbn [snd] in Hrest.
    destruct r as [t|e]; [|done].
    destruct rest as [|d rest']; [cbn; lia|].
    destruct (validate_description d). cbn in *. lia.
  - by rewrite view_tasks_final.
  - rewrite update_task_run. cbv zeta.
    destruct (stdin w) as [|line rest0] eqn:Hin; [cbn; by rewrite Hin|].
    destruct (Str.int line) as [task_id|]; [|cbn; lia].
    destruct (task_store w !! task_id) as [t|]; [|cbn; lia].
    match goal with |- context [input_loop_on ?p ?b ?l] =>
      pose proof (input_loop_on_rest p b l) as Hrest;
      destruct (input_loop_on p b l) as [[evs r] rest] end.
    cbn [snd] in Hrest.
    destruct r as [new_title|e]; [|cbn; lia].
    destruct rest as [|d rest']; cbn in *; lia.
  - rewrite delete_task_run. cbv zeta.
    destruct (stdin w) as [|line rest0] eqn:Hin; [cbn; by rewrite Hin|].
    destruct (Str.int line) as [task_id|]; [|cbn; lia].
    destruct (task_store w !! task_id) as [t|]; cbn; lia.
  - rewrite toggle_task_status_run. cbv zeta.
    destruct (stdin w) as [|line rest0] eqn:Hin; [cbn; by rewrite Hin|].
    destruct (Str.int line) as [task_id|]; [|cbn; lia].
    destruct (task_store w !! task_id) as [t|]; cbn; lia.
Qed.

Lemma input_consumes prompt w line :
  res (input prompt w) = Return line →
  S (length (stdin (final (input prompt w)))) = length (stdin w).
Proof. unfold input. by destruct (stdin w). Qed.

Lemma dispatch_ext choice (k1 k2 : M unit) w :
  (∀ w', (length (stdin w') ≤ length (stdin w))%nat → k1 w' = k2 w') →
  dispatch choice k1 w = dispatch choice k2 w.
Proof.
  intros H. unfold dispatch.
  repeat (destruct (String.eqb choice _); [apply bind_ext; intros _ _|]).
  - apply H, (run_op_stdin OpCreate).
  - apply H, (run_op_stdin OpList).
  - apply H, (run_op_stdin OpUpdate).
  - apply H, (run_op_stdin OpDelete).
  - apply H, (run_op_stdin OpToggleStatus).
  - done.
  - do 2 (apply bind_ext; intros _ _). by apply H.
Qed.

(** A turn budget above the number of unread lines is never used up:
    the run does not depend on it. *)
Lemma main_loop_fuel n m w :
  (length (stdin w) < n)%nat → (length (stdin w) < m)%nat →
  main_loop n w = main_loop m w.
Proof.
  revert m w. induction n as [|n IH]; intros [|m] w Hn Hm; try lia.
  cbn [main_loop]. apply bind_ext. intros _ _.
  change (final (display_menu w)) with w.
  apply bind_ext. intros line Hline%input_consumes.
  apply dispatch_ext. intros w' Hw'. apply IH; lia.
Qed.

Lemma dispatch_inv choice (k : M unit) w :
  (∀ w', inv w' → inv (final (k w'))) →
  inv w → inv (final (dispatch choice k w)).
Proof.
  intros Hk Hw. unfold dispatch.
  repeat (destruct (String.eqb choice _);
          [rewrite run_bind_final; destruct (res _)|]).
  - apply Hk, (run_op_inv OpCreate), Hw.
  - apply (run_op_inv OpCreate), Hw.
  - apply Hk, (run_op_inv OpList), Hw.
  - apply (run_op_inv OpList), Hw.
  - apply Hk, (run_op_inv OpUpdate), Hw.
  - apply (run_op_inv OpUpdate), Hw.
  - apply Hk, (run_op_inv OpDelete), Hw.
  - apply (run_op_inv OpDelete), Hw.
  - apply Hk, (run_op_inv OpToggleStatus), Hw.
  - apply (run_op_inv OpToggleStatus), Hw.
  - done.
  - done.
  - rewrite !run_bind_final. cbn. by apply Hk.
Qed.

Lemma main_loop_inv fuel w : inv w → inv (final (main_loop fuel w)).
Proof.
  revert w. induction fuel as [|fuel IH]; intros w Hw; [done|].
  cbn [main_loop]. rewrite run_bind_final.
  change (res (display_menu w)) with (Return (A:=unit) tt).
  change (final (display_menu w)) with w.
  rewrite run_bind_final. unfold input.
  destruct (stdin w) as [|line rest]; [done|]. cbn [res final].
  apply dispatch_inv; [done|]. by apply (inv_same w).
Qed.

(** Whatever is typed, the program ends, at choice 6 or at the end of
    input, in a state that satisfies the invariant. *)
Lemma main_inv lines : inv (final (main (initial lines))).
Proof.
  unfold main. rewrite !run_bind_final. cbn [res final print].
  apply main_loop_inv, inv_initial.
Qed.

(** * Further properties of the program *)

(** ** Validation *)

Lemma lstrip_empty_iff s :
  Str.lstrip s = EmptyString ↔ Str.all Str.isspace s = true.
Proof.
  induction s as [|c s IH]; cbn; [done|].
  destruct (Str.isspace c); cbn; [done|]. split; discriminate.
Qed.

Lemma strip_empty_iff s :
  Str.strip s = EmptyString ↔ Str.all Str.isspace s = true.
Proof.
  rewrite <-lstrip_empty_iff. unfold Str.strip.
  destruct (lstrip_head s) as [->|(c & s' & -> & Hc)]; [done|].
  rewrite (rstrip_head _ _ Hc). split; discriminate.
Qed.

Lemma strip_first s c s' :
  Str.strip s = String c s' → Str.isspace c = false.
Proof.
  unfold Str.strip.
  destruct (lstrip_head s) as [->|(c0 & s0 & -> & Hc)]; [done|].
  rewrite (rstrip_head _ _ Hc). by intros [= <- _].
Qed.

Lemma take_first n c s :
  Str.take (S n) (String c s) = String c (Str.take n s).
Proof. done. Qed.

(** X1: [validate_title] rejects a title exactly when every character
    of it is whitespace (the empty title included), and then the message
    is "Title cannot be empty".  Every other title is accepted. *)
Theorem validate_title_rejects_whitespace (s : string) :
  ((validate_title s).1 = None ↔ Str.all Str.isspace s = true)
  ∧ ((validate_title s).1 = None ↔
     validate_title s = (None, Some "Title cannot be empty")).
Proof.
  rewrite <-strip_empty_iff.
  destruct (decide (Str.strip s = EmptyString)) as [E|E].
  - rewrite (validate_title_empty _ E). cbn. done.
  - destruct (le_lt_dec (String.length (Str.strip s)) 100) as [L|L].
    + rewrite (validate_title_short _ E L). cbn. split; split; done.
    + rewrite (validate_title_long _ L). cbn [fst]. split; split; done.
Qed.

(** X2: a title that [validate_title] accepts is the first 100
    characters of the stripped input; it is not empty, has at most 100
    characters and does not start with whitespace.  There is a warning
    exactly when the stripped input is longer than 100 characters, and
    no warning exactly when the accepted title is the whole stripped
    input. *)
Theorem validate_title_accepts
    (s t : string) (warning : option string) :
  validate_title s = (Some t, warning) →
  t = Str.take 100 (Str.strip s)
  ∧ t ≠ EmptyString
  ∧ (String.length t ≤ 100)%nat
  ∧ (∃ c t', t = String c t' ∧ Str.isspace c = false)
  ∧ (warning = Some "Title truncated to 100 characters"
     ↔ (100 < String.length (Str.strip s))%nat)
  ∧ (warning = None ↔ t = Str.strip s).
Proof.
  destruct (decide (Str.strip s = EmptyString)) as [E|E].
  { rewrite (validate_title_empty _ E). discriminate. }
  destruct (take_title_valid _ E) as [Tne Tlen].
  assert (∃ c t', Str.take 100 (Str.strip s) = String c t'
                  ∧ Str.isspace c = false) as Tfirst.
  { destruct (Str.strip s) as [|c s'] eqn:Es; [done|].
    exists c, (Str.take 99 s'). split; [apply (take_first 99)|].
    by apply (strip_first _ _ _ Es). }
  pose proof (length_take 100 (Str.strip s)) as Tl.
  pose proof (take_all 100 (Str.strip s)) as Ta.
  revert Tne Tlen Tfirst Tl Ta.
  destruct (le_lt_dec (String.length (Str.strip s)) 100) as [L|L].
  - rewrite (validate_title_short _ E L).
    generalize (Str.take 100 (Str.strip s)). intros t0 ? ? ? ? Ta [= <- <-].
    specialize (Ta L). subst t0. repeat split; try done; try lia.
  - rewrite (validate_title_long _ L).
    generalize (Str.take 100 (Str.strip s)).
    intros t0 ? ? ? Tl _ [= <- <-].
    repeat split; try done. intros Heq. rewrite Heq in Tl. lia.
Qed.

Lemma validate_title_accepts_witness :
  validate_title "  Buy milk " = (Some "Buy milk", None)
  ∧ "Buy milk" = Str.take 100 (Str.strip "  Buy milk ").
Proof.
  assert (validate_title "  Buy milk " = (Some "Buy milk", None)) as H
    by reflexivity.
  split; [exact H|].
  exact (proj1 (validate_title_accepts "  Buy milk " "Buy milk" None H)).
Defined.

Lemma validate_description_eq d :
  validate_description d =
  (Str.take 500 d,
   if 500 <? Str.len d then Some "Description truncated to 500 characters"
   else None).
Proof.
  unfold validate_description.
  destruct (Z.ltb_spec 500 (Str.len d)) as [L|L]; [done|].
  unfold Str.len in L. by rewrite take_all by lia.
Qed.

(** X3: [validate_description] returns the first 500 characters of its
    input, unstripped; the result has at most 500 characters; there is
    no warning exactly when the input has at most 500 characters, and
    then the input is returned as it is.  Validating the result again
    changes nothing and warns of nothing. *)
Theorem validate_description_rule (d : string) :
  let r := validate_description d in
  r.1 = Str.take 500 d
  ∧ (String.length r.1 ≤ 500)%nat
  ∧ (r.2 = None ↔ (String.length d ≤ 500)%nat)
  ∧ (r.2 = Some "Description truncated to 500 characters"
     ↔ (500 < String.length d)%nat)
  ∧ ((String.length d ≤ 500)%nat → r.1 = d)
  ∧ validate_description r.1 = (r.1, None).
Proof.
  cbv zeta. rewrite !validate_description_eq. cbn [fst snd].
  pose proof (length_take 500 d) as Tl.
  pose proof (take_all 500 d) as Ta.
  pose proof (take_all 500 (Str.take 500 d)) as Tt.
  unfold Str.len. rewrite Tl. revert Tl Ta Tt.
  generalize (Str.take 500 d). intros t0 Tl Ta Tt.
  destruct (Z.ltb_spec 500 (Z.of_nat (String.length d))) as [L|L];
    (destruct (Z.ltb_spec 500
               (Z.of_nat (500 `min` String.length d))) as [L'|L']; [lia|]);
    rewrite Tt by lia; repeat split; try done; try lia.
Qed.

(** ** Reading a value from the console *)

Lemma get_user_input_line_blank line :
  Str.strip line = EmptyString →
  get_user_input_line false line = ([], None).
Proof. intros H. unfold get_user_input_line. by rewrite H. Qed.

Lemma get_user_input_line_ok allow_empty line :
  allow_empty = true ∨ Str.strip line ≠ EmptyString →
  get_user_input_line allow_empty line = ([], Some (Str.strip line)).
Proof.
  unfold get_user_input_line. intros [->|H%truthy_true]; [done|].
  rewrite H. by rewrite andb_false_r.
Qed.

Lemma get_user_input_skips prompt blanks line rest :
  Forall (λ l, Str.strip l = EmptyString) blanks →
  Str.strip line ≠ EmptyString →
  input_loop_on prompt (get_user_input_line false) (blanks ++ line :: rest)
  = (replicate (S (length blanks)) (Prompt prompt),
     Return (Str.strip line), rest).
Proof.
  intros Hb Hline. induction Hb as [|b blanks Hb _ IH]; cbn [app].
  - by rewrite (input_loop_on_leave _ _ _ _ _ _
                  (get_user_input_line_ok false line (or_intror Hline))).
  - rewrite (input_loop_on_again _ _ _ _ _ (get_user_input_line_blank _ Hb)).
    by rewrite IH.
Qed.

Lemma get_user_input_eof prompt allow_empty lines evs e rest :
  input_loop_on prompt (get_user_input_line allow_empty) lines
  = (evs, Raise e, rest) →
  Forall (λ l, Str.strip l = EmptyString) lines
  ∧ (allow_empty = true → lines = []).
Proof.
  revert evs rest. induction lines as [|line lines IH]; intros evs rest.
  { by intros _. }
  destruct (decide (allow_empty = true ∨ Str.strip line ≠ EmptyString))
    as [Hok|Hno].
  - by rewrite (input_loop_on_leave _ _ _ _ _ _
                  (get_user_input_line_ok _ _ Hok)).
  - assert (allow_empty = false) as -> by (destruct allow_empty; tauto).
    assert (Str.strip line = EmptyString) as Hb
      by (destruct (decide (Str.strip line = EmptyString)); tauto).
    rewrite (input_loop_on_again _ _ _ _ _ (get_user_input_line_blank _ Hb)).
    destruct (input_loop_on _ _ lines) as [[evs' r'] rest'].
    intros [= <- -> <-]. destruct (IH _ _ eq_refl) as [IH1 _].
    split; [by constructor|done].
Qed.

(** X4: with [allow_empty] false, [get_user_input] asks once for every
    line it reads, passes over the lines that are blank after stripping
    and returns the first other line, stripped; the lines after it stay
    on the console and the mapping and the counter are untouched. *)
Theorem get_user_input_skips_blank_lines
    (prompt : string) (w : world) (blanks : list string) (line : string)
    (rest : list string) :
  stdin w = blanks ++ line :: rest →
  Forall (λ l, Str.strip l = EmptyString) blanks →
  Str.strip line ≠ EmptyString →
  get_user_input prompt false w =
  Run (replicate (S (length blanks)) (Prompt prompt))
      (Return (Str.strip line))
      (World rest (task_store w) (next_task_id w)).
Proof.
  intros Hin Hb Hline. unfold get_user_input, input_loop.
  by rewrite Hin, (get_user_input_skips _ _ _ _ Hb Hline).
Qed.

Lemma get_user_input_skips_blank_lines_witness :
  let w := World ["  "; EmptyString; " Ann  "; "x"] {[1 := a_task]} 2 in
  stdin w = ["  "; EmptyString] ++ " Ann  " :: ["x"]
  ∧ Forall (λ l, Str.strip l = EmptyString) ["  "; EmptyString]
  ∧ Str.strip " Ann  " ≠ EmptyString
  ∧ get_user_input "Name: " false w =
    Run [Prompt "Name: "; Prompt "Name: "; Prompt "Name: "] (Return "Ann")
        (World ["x"] {[1 := a_task]} 2).
Proof.
  cbv zeta.
  assert (Forall (λ l, Str.strip l = EmptyString) ["  "; EmptyString])
    as Hb by (repeat constructor).
  assert (Str.strip " Ann  " ≠ EmptyString) as Hline by (by vm_compute).
  split; [reflexivity|]. split; [exact Hb|]. split; [exact Hline|].
  exact (get_user_input_skips_blank_lines "Name: "
           (World ["  "; EmptyString; " Ann  "; "x"] {[1 := a_task]} 2)
           ["  "; EmptyString] " Ann  " ["x"] eq_refl Hb Hline).
Defined.

(** X5: whatever is on the console, [get_user_input] leaves the mapping
    and the counter as they were.  A value it returns is one of the
    console lines, stripped, and is not empty unless [allow_empty] is
    set; with [allow_empty] set it returns the first line, stripped,
    blank or not.  It ends in an exception only at the end of input:
    the exception is EOFError, every line it read was blank, and with
    [allow_empty] set there was no line at all. *)
Theorem get_user_input_outcomes
    (prompt : string) (allow_empty : bool) (w : world) :
  let r := get_user_input prompt allow_empty w in
  repo (final r) = repo w
  ∧ (∀ s, res r = Return s →
       (∃ line, line ∈ stdin w ∧ s = Str.strip line)
       ∧ Str.strip s = s
       ∧ (allow_empty = false → s ≠ EmptyString))
  ∧ (allow_empty = true →
     ∀ line rest, stdin w = line :: rest →
       res r = Return (Str.strip line) ∧ stdin (final r) = rest)
  ∧ (∀ e, res r = Raise e →
       e = EOFError ∧ stdin (final r) = []
       ∧ Forall (λ l, Str.strip l = EmptyString) (stdin w)
       ∧ (allow_empty = true → stdin w = [])).
Proof.
  cbv zeta. unfold get_user_input, input_loop.
  destruct (input_loop_on _ _ _) as [[evs r] rest] eqn:L.
  cbn [res final]. split; [done|]. split; [|split].
  - intros s ->. apply input_loop_on_result in L as (line & evs0 & Hin & Hb).
    unfold get_user_input_line in Hb.
    destruct (negb allow_empty && negb (Str.truthy (Str.strip line)))
      eqn:C; [done|].
    injection Hb as _ <-. split; [by exists line|].
    split; [apply strip_idem|]. intros ->. cbn in C.
    apply negb_false_iff in C. by apply truthy_true.
  - intros -> line rest' Hin. rewrite Hin in L.
    rewrite (input_loop_on_leave _ _ _ _ _ _
               (get_user_input_line_ok true line (or_introl eq_refl))) in L.
    by injection L as <- <- <-.
  - intros e ->. pose proof (input_loop_on_result _ _ _ _ _ _ L) as [-> ->].
    apply get_user_input_eof in L as [? ?]. done.
Qed.

(** ** How operations end *)

Lemma view_tasks_res w : res (view_tasks w) = Return tt.
Proof. rewrite view_tasks_run. cbv zeta. by case_decide. Qed.

Lemma run_op_get_res task_id w : res (run_op (OpGet task_id) w) = Return tt.
Proof.
  cbn [run_op]. unfold mbind, M_bind. rewrite find_task_run.
  by destruct (task_store w !! task_id).
Qed.

(** An operation ends in an exception only at the end of input, and then
    it has changed neither the mapping nor the counter. *)
Lemma run_op_raise o w e :
  res (run_op o w) = Raise e →
  e = EOFError ∧ repo (final (run_op o w)) = repo w
  ∧ stdin (final (run_op o w)) = [].
Proof.
  destruct o as [| |task_id| | |].
  - cbn [run_op]. rewrite add_task_run.
    destruct (input_loop_on _ _ _) as [[evs r] rest] eqn:L.
    apply input_loop_on_result in L.
    destruct r as [t|e'].
    + destruct rest as [|d rest']; [by intros [= <-]|].
      by destruct (validate_description d).
    + destruct L as [-> ->]. by intros [= <-].
  - cbn [run_op]. by rewrite view_tasks_res.
  - by rewrite run_op_get_res.
  - cbn [run_op]. rewrite update_task_run. cbv zeta.
    destruct (stdin w) as [|line rest0] eqn:Hin.
    { intros [= <-]. cbn. by rewrite Hin. }
    destruct (Str.int line) as [k|]; [|done].
    destruct (task_store w !! k) as [t|]; [|done].
    destruct (input_loop_on _ _ _) as [[evs r] rest] eqn:L.
    apply input_loop_on_result in L.
    destruct r as [new_title|e'].
    + destruct rest as [|d rest']; [by intros [= <-]|done].
    + destruct L as [-> ->]. by intros [= <-].
  - cbn [run_op]. rewrite delete_task_run. cbv zeta.
    destruct (stdin w) as [|line rest0] eqn:Hin.
    { intros [= <-]. cbn. by rewrite Hin. }
    destruct (Str.int line) as [k|]; [|done].
    by destruct (task_store w !! k) as [t|].
  - cbn [run_op]. rewrite toggle_task_status_run. cbv zeta.
    destruct (stdin w) as [|line rest0] eqn:Hin.
    { intros [= <-]. cbn. by rewrite Hin. }
    destruct (Str.int line) as [k|]; [|done].
    by destruct (task_store w !! k) as [t|].
Qed.

(** X6: an operation that ends in an exception does so with EOFError,
    at the end of the console input, and has then changed neither the
    mapping nor the counter: an update or a creation whose input runs
    out half way stores nothing.  No operation ends in KeyError;
    listing and lookup never end in an exception. *)
Theorem operations_fail_only_at_end_of_input (o : op) (w : world) :
  (∀ e, res (run_op o w) = Raise e →
     e = EOFError
     ∧ repo (final (run_op o w)) = repo w
     ∧ stdin (final (run_op o w)) = [])
  ∧ (∀ k, res (run_op o w) ≠ Raise (KeyError k))
  ∧ (o = OpList ∨ (∃ task_id, o = OpGet task_id) →
     res (run_op o w) = Return tt).
Proof.
  split; [|split].
  - intros e. apply run_op_raise.
  - intros k H. by apply run_op_raise in H as [? _].
  - intros [->|[task_id ->]]; [apply view_tasks_res|apply run_op_get_res].
Qed.



(** ** Creation *)

Lemma inv_next_free w : inv w → task_store w !! next_task_id w = None.
Proof.
  intros Hw. destruct (task_store w !! next_task_id w) as [t|] eqn:E;
    [|done].
  pose proof (inv_next _ Hw _ _ E). lia.
Qed.

(** X8: in a state that satisfies the invariant, [add_task] never
    touches a record that is already stored, whatever it reads; when it
    returns, the mapping has exactly one record more, and otherwise as
    many as before. *)
Theorem create_keeps_existing_tasks (w : world) :
  inv w →
  (∀ k t, task_store w !! k = Some t →
     task_store (final (add_task w)) !! k = Some t)
  ∧ size (task_store (final (add_task w))) =
    match res (add_task w) with
    | Return _ => S (size (task_store w))
    | Raise _ => size (task_store w)
    end.
Proof.
  intros Hw. pose proof (inv_next_free _ Hw) as Hfree.
  rewrite add_task_run.
  destruct (input_loop_on _ _ _) as [[evs r] rest].
  destruct r as [t0|e]; [|done].
  destruct rest as [|d rest']; [done|].
  destruct (validate_description d) as [vd warning].
  cbn [final res task_store]. split.
  - intros k t Hk. pose proof (inv_next _ Hw _ _ Hk).
    rewrite lookup_insert_ne; [done|lia].
  - by apply map_size_insert_None.
Qed.

Lemma create_keeps_existing_tasks_witness :
  let w := World ["Call Ann"; EmptyString] {[1 := a_task]} 2 in
  inv w ∧ task_store (final (add_task w)) !! 1 = Some a_task.
Proof.
  cbv zeta.
  assert (inv (World ["Call Ann"; EmptyString] {[1 := a_task]} 2)) as Hw.
  { split; intros k t; cbn [task_store next_task_id];
      rewrite lookup_singleton_Some; intros [<- <-]; [|lia].
    split; cbn; [done|done|lia|lia|by left]. }
  split; [exact Hw|].
  apply (proj1 (create_keeps_existing_tasks _ Hw) 1 a_task).
  reflexivity.
Defined.

(** X9: a creation with a title line that is not blank stores the
    description line cut to its first 500 characters, not stripped, and
    the status "Pending".  The title warning is printed exactly when the
    stripped title line is longer than 100 characters, the description
    warning exactly when the description line is longer than 500
    characters, and no error is printed. *)
Theorem create_warns_exactly_on_truncation
    (w : world) (line d : string) (rest : list string) :
  stdin w = line :: d :: rest → Str.strip line ≠ EmptyString →
  let r := add_task w in
  (∃ t, task_store (final r) !! next_task_id w = Some t
     ∧ description t = Str.take 500 d ∧ status t = "Pending")
  ∧ (truncated_title r ↔ (100 < String.length (Str.strip line))%nat)
  ∧ (truncated_description r ↔ (500 < String.length d)%nat)
  ∧ ¬ invalid_title r.
Proof.
  intros Hin Hline. cbv zeta.
  rewrite (add_task_ok _ _ _ _ Hin Hline). cbn [final out task_store].
  unfold truncated_title, truncated_description, invalid_title. cbn [out].
  rewrite (add_task_title_ok _ Hline). unfold new_task.
  rewrite validate_description_eq. cbn [fst snd]. unfold Str.len.
  split; [eexists; by rewrite lookup_insert_eq|].
  destruct (Z.ltb_spec 100 (Z.of_nat (String.length (Str.strip line))));
    destruct (Z.ltb_spec 500 (Z.of_nat (String.length d)));
    cbn [warning_events Str.truthy Str.is_empty negb app];
    (split; [|split]);
    first
      [ apply not_printed; silent
      | split;
        [ intros _; lia
        | intros _; rewrite !elem_of_cons; tauto ]
      | split;
        [ intros Hin'; exfalso; revert Hin'; apply not_printed; silent
        | intros; lia ] ].
Qed.

Lemma create_warns_exactly_on_truncation_witness :
  let w := initial ["Buy milk"; Str.repeat " "%char 501] in
  stdin w = ["Buy milk"; Str.repeat " "%char 501]
  ∧ Str.strip "Buy milk" ≠ EmptyString
  ∧ (truncated_description (add_task w)
     ↔ (500 < String.length (Str.repeat " "%char 501))%nat).
Proof.
  cbv zeta.
  assert (Str.strip "Buy milk" ≠ EmptyString) as Hline by (by vm_compute).
  split; [reflexivity|]. split; [exact Hline|].
  exact (proj1 (proj2 (proj2 (create_warns_exactly_on_truncation
           (initial ["Buy milk"; Str.repeat " "%char 501])
           "Buy milk" (Str.repeat " "%char 501) [] eq_refl Hline)))).
Defined.

(** ** Updates, continued *)



Lemma take_truthy n s :
  (0 < n)%nat → Str.truthy s = true → Str.take n s ≠ EmptyString.
Proof. intros Hn Hs%truthy_true. by apply take_nonempty. Qed.

(** X11: an update cannot clear a description: whatever it reads, a
    record whose description is not empty has a description that is not
    empty afterwards. *)
Theorem update_never_clears_description (w : world) (k : Z) (t : task) :
  task_store w !! k = Some t → description t ≠ EmptyString →
  ∃ t', task_store (final (update_task w)) !! k = Some t'
        ∧ description t' ≠ EmptyString.
Proof.
  intros Hk Hd. rewrite update_task_run. cbv zeta.
  destruct (stdin w) as [|line rest0]; [by exists t|].
  destruct (Str.int line) as [task_id|]; [|by exists t].
  destruct (task_store w !! task_id) as [t0|] eqn:Ht; [|by exists t].
  destruct (input_loop_on _ _ _) as [[evs r] rest].
  destruct r as [new_title|e]; [|by exists t].
  destruct rest as [|d rest']; [by exists t|].
  cbn [final task_store].
  destruct (decide (task_id = k)) as [->|N].
  - rewrite lookup_insert_eq. eexists. split; [done|]. cbn [description].
    rewrite Hk in Ht. injection Ht as <-.
    destruct (Str.truthy d) eqn:Td; [|done].
    rewrite validate_description_eq. cbn [fst].
    apply take_truthy; [lia|done].
  - rewrite lookup_insert_ne by done. by exists t.
Qed.

Lemma update_never_clears_description_witness :
  let t := Task 1 "Buy milk" "2 litres" "Pending" in
  let w := World ["1"; EmptyString; " "] {[1 := t]} 2 in
  task_store w !! 1 = Some t ∧ description t ≠ EmptyString
  ∧ ∃ t', task_store (final (update_task w)) !! 1 = Some t'
          ∧ description t' ≠ EmptyString.
Proof.
  cbv zeta.
  assert (task_store (World ["1"; EmptyString; " "]
            {[1 := Task 1 "Buy milk" "2 litres" "Pending"]} 2) !! 1
          = Some (Task 1 "Buy milk" "2 litres" "Pending")) as Hk
    by (vm_compute; reflexivity).
  assert (description (Task 1 "Buy milk" "2 litres" "Pending")
          ≠ EmptyString) as Hd by discriminate.
  split; [exact Hk|]. split; [exact Hd|].
  exact (update_never_clears_description _ 1 _ Hk Hd).
Defined.

(** ** Operations one after the other *)

Lemma run_bind_res {A B} (m : M A) (f : A → M B) w :
  res ((m ≫= f) w) =
  match res (m w) with
  | Return a => res (f a (final (m w)))
  | Raise e => Raise e
  end.
Proof.
  unfold mbind, M_bind. destruct (m w) as [evs [a|e] w']; cbn; [|done].
  by destruct (f a w').
Qed.

(** X12: in a state that satisfies the invariant, creating a task and
    then deleting the id that the creation printed gives back the
    mapping as it was before; only the counter has moved, by one, so the
    id is spent. *)
Theorem create_then_delete_restores_mapping
    (w : world) (line d : string) (rest : list string) :
  inv w →
  stdin w = line :: d :: pretty (next_task_id w) :: rest →
  Str.strip line ≠ EmptyString →
  let r := run_ops [OpCreate; OpDelete] w in
  res r = Return tt
  ∧ task_store (final r) = task_store w
  ∧ next_task_id (final r) = next_task_id w + 1
  ∧ stdin (final r) = rest.
Proof.
  intros Hw Hin Hline. cbv zeta. cbn [run_ops run_op].
  rewrite !run_bind_res, !run_bind_final.
  rewrite (add_task_ok _ _ _ _ Hin Hline). cbn [res final].
  rewrite delete_task_run. cbv zeta. cbn [stdin task_store next_task_id].
  rewrite int_pretty, lookup_insert_eq.
  cbn [res final mret M_ret stdin task_store next_task_id]. repeat split.
  rewrite delete_insert_eq. apply delete_id, inv_next_free, Hw.
Qed.

Lemma create_then_delete_restores_mapping_witness :
  let w := initial ["Buy milk"; EmptyString; "1"; "x"] in
  inv w ∧ stdin w = ["Buy milk"; EmptyString; pretty 1; "x"]
  ∧ Str.strip "Buy milk" ≠ EmptyString
  ∧ task_store (final (run_ops [OpCreate; OpDelete] w)) = task_store w.
Proof.
  cbv zeta.
  assert (inv (initial ["Buy milk"; EmptyString; "1"; "x"])) as Hw
    by (split; intros k t; cbn; rewrite lookup_empty; discriminate).
  assert (Str.strip "Buy milk" ≠ EmptyString) as Hline by (by vm_compute).
  split; [exact Hw|]. split; [reflexivity|]. split; [exact Hline|].
  exact (proj1 (proj2 (create_then_delete_restores_mapping
           (initial ["Buy milk"; EmptyString; "1"; "x"])
           "Buy milk" EmptyString ["x"] Hw eq_refl Hline))).
Defined.

(** ** The not-found line *)

Lemma length_append s t :
  String.length (s +:+ t) = (String.length s + String.length t)%nat.
Proof.
  induction s as [|c s IH]; [done|].
  change (S (String.length (s +:+ t))
          = S (String.length s + String.length t)).
  by rewrite IH.
Qed.

Lemma append_inj_r s1 s2 t : s1 +:+ t = s2 +:+ t → s1 = s2.
Proof.
  revert s2. induction s1 as [|c s1 IH]; intros [|c2 s2] H.
  - done.
  - apply (f_equal String.length) in H. rewrite !length_append in H.
    cbn [String.length] in H. lia.
  - apply (f_equal String.length) in H. rewrite !length_append in H.
    cbn [String.length] in H. lia.
  - change (String c (s1 +:+ t) = String c2 (s2 +:+ t)) in H.
    injection H as -> H. f_equal. by apply IH.
Qed.

Lemma not_found_msg_inj j k : not_found_msg j = not_found_msg k → j = k.
Proof.
  unfold not_found_msg. intros H. apply (inj (String.append _)) in H.
  apply append_inj_r in H. by apply (inj pretty) in H.
Qed.

Lemma elem_of_quiet_cons s e l :
  printed s e = false → Print s ∈ e :: l → Print s ∈ l.
Proof.
  intros Hq [<-|H]%elem_of_cons; [|done].
  cbn in Hq. by rewrite String.eqb_refl in Hq.
Qed.

(** X13: the not-found line names the id that was asked for.  When
    [update_task], [delete_task] or [toggle_task_status] prints
    "Task ID k not found", then k is the number on the console line it
    read, k is not a key of the mapping, and the operation returned
    without changing the mapping or the counter. *)
Theorem not_found_names_requested_id (o : op) (w : world) (k : Z) :
  o ∈ [OpUpdate; OpDelete; OpToggleStatus] →
  not_found k (run_op o w) →
  requested_id w = Some k
  ∧ task_store w !! k = None
  ∧ res (run_op o w) = Return tt
  ∧ repo (final (run_op o w)) = repo w.
Proof.
  intros Ho Hnf.
  destruct (run_op_not_found _ _ _ Ho Hnf)
    as (line & rest & j & Hin & Hint & Hj & Hres & Hfin).
  assert (j = k) as ->.
  { revert Hnf. unfold not_found.
    by_id_cases Ho; cbn [run_op];
      [rewrite update_task_run|rewrite delete_task_run
      |rewrite toggle_task_status_run];
      along_eqs (Hin, Hint, Hj); cbn [out];
      intros E; do 2 (apply elem_of_quiet_cons in E; [|reflexivity]);
      apply list_elem_of_singleton in E;
      symmetry; apply not_found_msg_inj; congruence. }
  unfold requested_id. rewrite Hin, Hres, Hfin. done.
Qed.

Lemma not_found_names_requested_id_witness :
  let w := World [" 7 "] {[1 := a_task]} 2 in
  OpToggleStatus ∈ [OpUpdate; OpDelete; OpToggleStatus]
  ∧ not_found 7 (run_op OpToggleStatus w)
  ∧ requested_id w = Some 7.
Proof.
  cbv zeta.
  assert (OpToggleStatus ∈ [OpUpdate; OpDelete; OpToggleStatus]) as Ho
    by (right; right; left).
  assert (not_found 7 (run_op OpToggleStatus
                         (World [" 7 "] {[1 := a_task]} 2))) as Hnf
    by (unfold not_found; vm_compute; right; right; left).
  split; [exact Ho|]. split; [exact Hnf|].
  exact (proj1 (not_found_names_requested_id OpToggleStatus
                  (World [" 7 "] {[1 := a_task]} 2) 7 Ho Hnf)).
Defined.

(** ** Toggling, continued *)



(** ** The whole program *)

Lemma dispatch_preserves (P : world → Prop) choice (k : M unit) w :
  (∀ o w, P w → P (final (run_op o w))) →
  (∀ w', P w' → P (final (k w'))) →
  P w → P (final (dispatch choice k w)).
Proof.
  intros Hop Hk Hw. unfold dispatch.
  repeat (destruct (String.eqb choice _);
          [rewrite run_bind_final; destruct (res _)|]).
  - apply Hk, (Hop OpCreate), Hw.
  - apply (Hop OpCreate), Hw.
  - apply Hk, (Hop OpList), Hw.
  - apply (Hop OpList), Hw.
  - apply Hk, (Hop OpUpdate), Hw.
  - apply (Hop OpUpdate), Hw.
  - apply Hk, (Hop OpDelete), Hw.
  - apply (Hop OpDelete), Hw.
  - apply Hk, (Hop OpToggleStatus), Hw.
  - apply (Hop OpToggleStatus), Hw.
  - done.
  - done.
  - rewrite !run_bind_final. cbn. by apply Hk.
Qed.

Lemma main_loop_preserves (P : world → Prop) fuel w :
  (∀ o w, P w → P (final (run_op o w))) →
  (∀ w w', repo w' = repo w → P w → P w') →
  P w → P (final (main_loop fuel w)).
Proof.
  intros Hop Hrepo. revert w.
  induction fuel as [|fuel IH]; intros w Hw; [done|].
  cbn [main_loop]. rewrite run_bind_final.
  change (res (display_menu w)) with (Return (A:=unit) tt).
  change (final (display_menu w)) with w.
  rewrite run_bind_final. unfold input.
  destruct (stdin w) as [|line rest]; [done|]. cbn [res final].
  apply dispatch_preserves; [done|done|]. by apply (Hrepo w).
Qed.

(** The keys of the mapping after an operation were keys before, or the
    value of the counter. *)
Lemma run_op_keys o w k :
  is_Some (task_store (final (run_op o w)) !! k) →
  is_Some (task_store w !! k) ∨ k = next_task_id w.
Proof.
  destruct o as [| |task_id| | |].
  - cbn [run_op]. rewrite add_task_run.
    destruct (input_loop_on _ _ _) as [[evs r] rest].
    destruct r as [t|e]; [|by left].
    destruct rest as [|d rest']; [by left|].
    destruct (validate_description d). cbn [final task_store].
    rewrite lookup_insert. case_decide; [by right|by left].
  - cbn [run_op]. rewrite view_tasks_final. by left.
  - rewrite run_op_get_final. by left.
  - cbn [run_op]. pose proof (update_task_keeps w k) as H.
    destruct (task_store w !! k); [by left|]. rewrite H. by left.
  - cbn [run_op]. rewrite delete_task_store.
    destruct (requested_id w) as [j|]; [|by left].
    rewrite lookup_delete. case_decide; [|by left].
    by intros [? ?].
  - cbn [run_op]. rewrite toggle_task_status_store.
    destruct (requested_id w) as [j|]; [|by left].
    rewrite lookup_alter. case_decide; [subst|by left].
    rewrite fmap_is_Some. by left.
Qed.

(** In a state that satisfies the invariant the mapping grows only
    when the counter moves. *)
Lemma run_op_size o w :
  inv w →
  Z.of_nat (size (task_store (final (run_op o w))))
  - next_task_id (final (run_op o w))
  ≤ Z.of_nat (size (task_store w)) - next_task_id w.
Proof.
  intros Hw. destruct o as [| |task_id| | |].
  - cbn [run_op]. rewrite add_task_run.
    destruct (input_loop_on _ _ _) as [[evs r] rest].
    destruct r as [t|e]; [|done].
    destruct rest as [|d rest']; [done|].
    destruct (validate_description d). cbn [final task_store next_task_id].
    rewrite map_size_insert_None by (by apply inv_next_free). lia.
  - cbn [run_op]. by rewrite view_tasks_final.
  - by rewrite run_op_get_final.
  - cbn [run_op]. rewrite update_task_run. cbv zeta.
    destruct (stdin w) as [|line rest0]; [done|].
    destruct (Str.int line) as [k|]; [|done].
    destruct (task_store w !! k) as [t|] eqn:Ht; [|done].
    destruct (input_loop_on _ _ _) as [[evs r] rest].
    destruct r as [new_title|e]; [|done].
    destruct rest as [|d rest']; [done|].
    cbn [final task_store next_task_id].
    by rewrite map_size_insert_Some by (by eexists).
  - cbn [run_op]. rewrite delete_task_run. cbv zeta.
    destruct (stdin w) as [|line rest0]; [done|].
    destruct (Str.int line) as [k|]; [|done].
    destruct (task_store w !! k) as [t|] eqn:Ht; [|done].
    cbn [final task_store next_task_id].
    rewrite map_size_delete_Some by (by eexists). lia.
  - cbn [run_op]. rewrite toggle_task_status_run. cbv zeta.
    destruct (stdin w) as [|line rest0]; [done|].
    destruct (Str.int line) as [k|]; [|done].
    destruct (task_store w !! k) as [t|] eqn:Ht; [|done].
    cbn [final task_store next_task_id].
    by rewrite map_size_insert_Some by (by eexists).
Qed.

(** X15: whatever is typed, [main] ends, at choice 6 or at the end of
    the input, in a state that satisfies the repository invariant and in
    which every id of the mapping is at least 1 and below the counter;
    the mapping holds at most as many tasks as the counter has issued
    ids. *)
Theorem program_ends_in_valid_state (lines : list string) :
  let w := final (main (initial lines)) in
  inv w
  ∧ 1 ≤ next_task_id w
  ∧ (∀ k t, task_store w !! k = Some t →
       1 ≤ k < next_task_id w ∧ tid t = k)
  ∧ Z.of_nat (size (task_store w)) ≤ next_task_id w - 1.
Proof.
  cbv zeta.
  set (P := λ w : world,
         inv w ∧ 1 ≤ next_task_id w
         ∧ (∀ k, is_Some (task_store w !! k) → 1 ≤ k)
         ∧ Z.of_nat (size (task_store w)) ≤ next_task_id w - 1).
  assert (P (final (main (initial lines)))) as (Hw & Hn & Hk & Hs).
  { unfold main. rewrite !run_bind_final. cbn [res final print].
    apply main_loop_preserves.
    - intros o w (Hw & Hn & Hk & Hs). split; [by apply run_op_inv|].
      pose proof (run_op_next_le o w). split; [lia|]. split.
      + intros k [Hk'| ->]%run_op_keys; [by apply Hk|done].
      + pose proof (run_op_size o w Hw). lia.
    - intros w w' Hr (Hw & Hn & Hk & Hs).
      split; [by apply (inv_same w)|].
      unfold repo in Hr. injection Hr as Hs' Hn'. rewrite Hs', Hn'. done.
    - split; [apply inv_initial|]. split; [done|]. split.
      + intros k. cbn. rewrite lookup_empty. by intros [? ?].
      + cbn. rewrite map_size_empty. lia. }
  split; [done|]. split; [done|]. split; [|done]. intros k t Ht.
  pose proof (inv_next _ Hw _ _ Ht).
  pose proof (valid_key _ _ (inv_tasks _ Hw _ _ Ht)).
  assert (1 ≤ k) by (apply Hk; by eexists). done.
Qed.

Lemma ends_with_bind {A B} s (m : M A) (f : A → M B) w a :
  res (m w) = Return a →
  ends_with s (f a (final (m w))) → ends_with s ((m ≫= f) w).
Proof.
  unfold ends_with, mbind, M_bind.
  destruct (m w) as [evs0 [a0|e] w']; cbn; [|done].
  intros [= ->] [evs Hevs]. exists (evs0 ++ evs).
  rewrite after_out, Hevs. by rewrite app_assoc.
Qed.

Section ending.
Let bye : string := "All tasks have been cleared from memory. Goodbye!".

(** The two ways the program can end. *)
Let ended (r : run unit) : Prop :=
  (res r = Raise EOFError ∧ stdin (final r) = [])
  ∨ (res r = Return tt ∧ ends_with bye r).

Lemma ended_bind {A} (m : M A) (f : A → M unit) w :
  (∀ e, res (m w) = Raise e → e = EOFError ∧ stdin (final (m w)) = []) →
  (∀ a, res (m w) = Return a → ended (f a (final (m w)))) →
  ended ((m ≫= f) w).
Proof.
  intros Hraise Hret. unfold ended.
  rewrite run_bind_res, run_bind_final.
  destruct (res (m w)) as [a|e] eqn:R.
  - destruct (Hret a eq_refl) as [?|[? Hends]]; [by left|right].
    split; [done|]. by apply (ends_with_bind _ _ _ _ a).
  - destruct (Hraise e eq_refl) as [-> ?]. by left.
Qed.

Lemma ended_after_op o (k : M unit) w :
  (∀ w', (length (stdin w') ≤ length (stdin w))%nat → ended (k w')) →
  ended ((run_op o ≫= λ _, k) w).
Proof.
  intros Hk. apply ended_bind.
  - intros e He. by apply run_op_raise in He as (? & _ & ?).
  - intros _ _. apply Hk, run_op_stdin.
Qed.

Lemma dispatch_ended choice (k : M unit) w :
  (∀ w', (length (stdin w') ≤ length (stdin w))%nat → ended (k w')) →
  ended (dispatch choice k w).
Proof.
  intros Hk. unfold dispatch.
  destruct (String.eqb choice "1"); [by apply (ended_after_op OpCreate)|].
  destruct (String.eqb choice "2"); [by apply (ended_after_op OpList)|].
  destruct (String.eqb choice "3"); [by apply (ended_after_op OpUpdate)|].
  destruct (String.eqb choice "4"); [by apply (ended_after_op OpDelete)|].
  destruct (String.eqb choice "5");
    [by apply (ended_after_op OpToggleStatus)|].
  destruct (String.eqb choice "6").
  - right. split; [done|]. by eexists [_].
  - do 2 (apply ended_bind; [done|intros _ _]). by apply Hk.
Qed.

Lemma main_loop_ended n w :
  (length (stdin w) < n)%nat → ended (main_loop n w).
Proof.
  revert w. induction n as [|n IH]; intros w Hn; [lia|].
  cbn [main_loop]. apply ended_bind; [done|intros _ _].
  change (final (display_menu w)) with w.
  apply ended_bind.
  - unfold input. destruct (stdin w) eqn:Hin; [|done].
    intros e [= <-]. by split.
  - intros line Hline%input_consumes.
    apply dispatch_ended. intros w' Hw'. apply IH. lia.
Qed.

(** X16: on every console input [main] ends in one of two ways: it
    returns, and then the last line it printed is the goodbye of choice
    6, or the input ran out and it ends with EOFError having read every
    line.  It never ends in KeyError and never stops silently.  The
    menu loop takes at most one turn per console line: any turn budget
    above the number of unread lines gives the same run. *)
Theorem program_ends_at_exit_or_end_of_input (w : world) :
  ((res (main w) = Raise EOFError ∧ stdin (final (main w)) = [])
   ∨ (res (main w) = Return tt
      ∧ ends_with "All tasks have been cleared from memory. Goodbye!"
                  (main w)))
  ∧ (∀ n, (length (stdin w) < n)%nat →
       main_loop n w = main_loop (S (length (stdin w))) w).
Proof.
  split.
  - unfold main. do 2 (apply ended_bind; [done|intros _ _]).
    cbn [final print]. apply main_loop_ended. lia.
  - intros n Hn. apply main_loop_fuel; lia.
Qed.

End ending.

(** ** Reading back what was written *)

Lemma shown_task_listed w k t :
  task_store w !! k = Some t →
  Forall (λ e, e ∈ out (view_tasks w)) (show_task t).
Proof.
  intros Hk. rewrite view_tasks_run. cbv zeta.
  rewrite decide_False by (intros E; by rewrite E, lookup_empty in Hk).
  cbn [out]. apply Forall_forall. intros e He.
  right. apply elem_of_app. left.
  apply list_elem_of_In, in_flat_map. exists k. split.
  - apply list_elem_of_In, elem_of_sorted_ids. by eexists.
  - apply list_elem_of_In. by rewrite (lookup_total_correct _ _ _ Hk).
Qed.

(** X17: a task that was created can be read back.  After a creation
    with a title line that is not blank, [find_task] on the id the
    creation used returns the created record without printing anything,
    and [view_tasks] shows that id and that title. *)
Theorem created_task_is_found_and_listed
    (w : world) (line d : string) (rest : list string) :
  stdin w = line :: d :: rest → Str.strip line ≠ EmptyString →
  let w' := final (add_task w) in
  let t := new_task (next_task_id w) line d in
  find_task (next_task_id w) w' = Run [] (Return (Some t)) w'
  ∧ Print ("ID: " +:+ pretty (next_task_id w)) ∈ out (view_tasks w')
  ∧ Print ("Title: " +:+ Str.take 100 (Str.strip line))
    ∈ out (view_tasks w').
Proof.
  intros Hin Hline. cbv zeta.
  rewrite (add_task_ok _ _ _ _ Hin Hline). cbn [final].
  set (w' := World rest _ _).
  assert (task_store w' !! next_task_id w
          = Some (new_task (next_task_id w) line d)) as Hk
    by apply lookup_insert_eq.
  split; [by rewrite find_task_run, Hk|].
  pose proof (shown_task_listed _ _ _ Hk) as Hshown.
  unfold show_task in Hshown.
  apply Forall_cons in Hshown as [_ Hshown].
  apply Forall_cons in Hshown as [Hid Hshown].
  apply Forall_cons in Hshown as [Htitle _]. done.
Qed.

Lemma created_task_is_found_and_listed_witness :
  let w := initial ["  Buy milk"; "2 l"] in
  stdin w = ["  Buy milk"; "2 l"] ∧ Str.strip "  Buy milk" ≠ EmptyString
  ∧ Print ("Title: " +:+ Str.take 100 (Str.strip "  Buy milk"))
    ∈ out (view_tasks (final (add_task w))).
Proof.
  cbv zeta.
  assert (Str.strip "  Buy milk" ≠ EmptyString) as Hline by (by vm_compute).
  split; [reflexivity|]. split; [exact Hline|].
  exact (proj2 (proj2 (created_task_is_found_and_listed
           (initial ["  Buy milk"; "2 l"]) "  Buy milk" "2 l" []
           eq_refl Hline))).
Defined.






